(** * TRACE AI backend (backend/main.py): the request handlers and their
      degrade-to-fallback behaviour.

    The handlers of main.py are embedded as computations of a small
    exception-and-trace monad [M].  Everything main.py does not define
    itself (the chat-completion client, the HTTP client, the HTML parser,
    the texts of library exceptions) is a field of the environment [Env],
    over which every theorem quantifies. *)

From Stdlib Require Import ZArith QArith String Ascii Lia.
From stdpp Require Import base list gmap.

Local Close Scope Q_scope.
Local Open Scope nat_scope.

(** ** Python strings

    A Python [str] is a sequence of Unicode code points; [len] and slicing
    count code points.  Literals of the source are written with [lit]
    (their characters are ASCII) and the one non-ASCII character of the
    file, the bullet U+2022, is [bullet]. *)

Abbreviation str := (list N).

Definition lit (s : string) : str := map N_of_ascii (list_ascii_of_string s).
Arguments lit s%_string.

Definition nl : str := [10%N].
Definition bullet : str := [8226%N].

(** [len(s)] *)
Definition len {A} (s : list A) : Z := Z.of_nat (length s).

(** [s[:n]] *)
Definition slice_to {A} (s : list A) (n : Z) : list A :=
  if (n <? 0)%Z then take (Z.to_nat (len s + n)) s else take (Z.to_nat n) s.

(** [sep.join(parts)] *)
Fixpoint join (sep : str) (parts : list str) : str :=
  match parts with
  | [] => []
  | [p] => p
  | p :: rest => p ++ sep ++ join sep rest
  end.

(** A triple-quoted literal, line by line. *)
Definition text_lines (ls : list str) : str := join nl ls.

(** [t in s] on strings, as a proposition and as a test. *)
Definition contains (s t : str) : Prop := ∃ a b, s = a ++ t ++ b.

Fixpoint starts_with (s t : str) : bool :=
  match t, s with
  | [], _ => true
  | c :: t', d :: s' => (c =? d)%N && starts_with s' t'
  | _ :: _, [] => false
  end.

Fixpoint containsb (s t : str) : bool :=
  starts_with s t || match s with [] => false | _ :: s' => containsb s' t end.

(** ** Exceptions

    The handlers distinguish exceptions by two classes only,
    [httpx.HTTPError] and [Exception]; an exception object is modelled by
    the most specific of [BaseException], [Exception], [httpx.HTTPError]
    it is an instance of, and by its text [str(e)]. *)

Inductive PyClass := BaseException | Exception | HTTPError.

Definition issubclass (c d : PyClass) : bool :=
  match d, c with
  | BaseException, _ => true
  | Exception, (Exception | HTTPError) => true
  | HTTPError, HTTPError => true
  | _, _ => false
  end.

Record PyExc := { exc_class : PyClass; exc_str : str }.

Definition isinstance (e : PyExc) (c : PyClass) : bool :=
  issubclass (exc_class e) c.

Inductive Result (A : Type) :=
| Return (a : A)
| Raise (e : PyExc).
Arguments Return {A} a.
Arguments Raise {A} e.

(** ** The collaborators of main.py *)

(** Request to [client.chat.completions.create]; a message is the dict
    literal of the source, as its key/value pairs in order. *)
Record ChatRequest := {
  model : str;
  messages : list (list (str * str));
  max_tokens : Z;
  temperature : Q
}.

Module openai.
Record ChatCompletionMessage := { content : option str }.
Record Choice := { message : ChatCompletionMessage }.
Record ChatCompletion := { choices : list Choice }.
End openai.

Module httpx.
Record Response := { status_code : Z; content : list Byte.byte }.
(** [Response.is_success] *)
Definition is_success (r : Response) : bool :=
  (200 <=? status_code r)%Z && (status_code r <=? 299)%Z.
End httpx.

(** ** The parsed document (bs4)

    A [Tag] has a name, attributes and children; a string node is either a
    [NavigableString], which [get_text] yields, or one of the special
    string classes (comments, declarations, ...), which it skips. *)
#[local] Unset Elimination Schemes.
Inductive PageElement :=
| Tag (name : str) (attrs : list (str * str)) (contents : list PageElement)
| NavigableString (s : str)
| SpecialString (s : str).
#[local] Set Elimination Schemes.

(** [c] is a 7-bit ASCII character: every encoding of [sys.stdout] can
    write it. *)
Definition is_ascii (c : N) : bool := (c <? 128)%N.

Record Env := {
  (** [client.chat.completions.create(...)] *)
  chat_completions_create : ChatRequest → Result openai.ChatCompletion;
  (** [httpx.AsyncClient(timeout=30.0).get(url, follow_redirects=True)] *)
  http_get : str → Result httpx.Response;
  (** [str(e)] of the [httpx.HTTPStatusError] that [raise_for_status]
      raises for a response that is not a success *)
  status_error_str : httpx.Response → str;
  (** [BeautifulSoup(content, 'html.parser')]: the children of the root *)
  html_parser : list Byte.byte → list PageElement;
  (** [str(e)] of the pydantic [ValidationError] for [explanation=None] *)
  validation_error_str : str;
  (** the characters beyond ASCII that the encoding of [sys.stdout] can
      write (all of them for UTF-8 but the lone surrogates, none for
      ascii) *)
  stdout_encodes : N → bool;
  (** [str(e)] of the [UnicodeEncodeError] that writing a text to
      [sys.stdout] raises when it holds a character it cannot encode *)
  encode_error_str : str → str;
  (** the texts of the two library errors are ASCII (the offending
      character is written as an escape) *)
  validation_error_ascii : forallb is_ascii validation_error_str = true;
  encode_error_ascii : ∀ text, forallb is_ascii (encode_error_str text) = true
}.

(** ** The monad: an environment, a trace of what was done, a result *)

(** An event is one invocation made by the handler: of
    [client.chat.completions.create], of [http_client.get], of [print]
    (recorded when the text was written). *)
Inductive Event :=
| AiCall (r : ChatRequest)
| HttpGet (url : str)
| Print (s : str).

Definition M (A : Type) : Type := Env → list Event * Result A.

Definition ret {A} (a : A) : M A := λ _, ([], Return a).

Definition raise {A} (e : PyExc) : M A := λ _, ([], Raise e).

Definition bind {A B} (m : M A) (k : A → M B) : M B :=
  λ env,
    match m env with
    | (t, Return a) => let '(t', r) := k a env in (t ++ t', r)
    | (t, Raise e) => (t, Raise e)
    end.

Notation "x <- m ;; k" := (bind m (λ x, k))
  (at level 100, m at next level, right associativity).
Notation "m ;; k" := (bind m (λ _, k))
  (at level 100, right associativity).

(** [try: body  except cls as e: handler e] *)
Definition try_except {A} (body : M A) (cls : PyClass) (handler : PyExc → M A)
  : M A :=
  λ env,
    match body env with
    | (t, Return a) => (t, Return a)
    | (t, Raise e) =>
        if isinstance e cls
        then let '(t', r) := handler e env in (t ++ t', r)
        else (t, Raise e)
    end.

Definition create (r : ChatRequest) : M openai.ChatCompletion :=
  λ env, ([AiCall r], chat_completions_create env r).

Definition get (url : str) : M httpx.Response :=
  λ env, ([HttpGet url], http_get env url).

(** [response.raise_for_status()]: raises unless the status is a 2xx. *)
Definition raise_for_status (r : httpx.Response) : M unit :=
  λ env,
    if httpx.is_success r then ([], Return tt)
    else ([], Raise {| exc_class := HTTPError; exc_str := status_error_str env r |}).

Definition BeautifulSoup (markup : list Byte.byte) : M (list PageElement) :=
  λ env, ([], Return (html_parser env markup)).

(** [sys.stdout] can write [s]. *)
Definition printable (env : Env) (s : str) : bool :=
  forallb (λ c, is_ascii c || stdout_encodes env c) s.

(** [print(s)]: the text is encoded as a whole before anything is
    written; a character the encoding of [sys.stdout] lacks raises
    [UnicodeEncodeError]. *)
Definition print (s : str) : M unit :=
  λ env,
    if printable env s then ([Print s], Return tt)
    else ([], Raise {| exc_class := Exception; exc_str := encode_error_str env s |}).

(** [l[0]] *)
Definition index0 {A} (l : list A) : M A :=
  match l with
  | x :: _ => ret x
  | [] => raise {| exc_class := Exception; exc_str := lit "list index out of range" |}
  end.

(** ** Request and response models (pydantic) *)

Inductive ExplanationRequest := Build_ExplanationRequest.

Record DataRequestConcernRequest := { form_purpose : str; form_html : str }.

Record PrivacyPolicyRequest := { policy_url : str }.

Record ExplanationResponse := {
  explanation : str;
  success : bool;
  error : option str
}.

(** [ExplanationResponse(explanation=.., success=.., error=..)]: the field
    [explanation: str] refuses [None]; [error] defaults to [None]. *)
Definition new_ExplanationResponse
    (explanation : option str) (success : bool) (error : option str)
  : M ExplanationResponse :=
  λ env,
    match explanation with
    | Some s => ([], Return {| explanation := s; success := success; error := error |})
    | None => ([], Raise {| exc_class := Exception; exc_str := validation_error_str env |})
    end.

(** [response.choices[0].message.content] *)
Definition first_content (response : openai.ChatCompletion) : M (option str) :=
  c <- index0 (openai.choices response) ;;
  ret (openai.content (openai.message c)).

(** ** GET / *)

Definition health_check : M (list (str * str)) :=
  ret [ (lit "status", lit "healthy");
        (lit "service", lit "TRACE AI Backend");
        (lit "version", lit "1.0.0") ].

(** ** POST /explain/insecure_submission *)

Definition gemini : str := lit "gemini-2.5-flash-preview-05-20".

Definition message (role content : str) : list (str * str) :=
  [ (lit "role", role); (lit "content", content) ].

(** The keyword arguments of the handler's [create] call. *)
Definition insecure_submission_request : ChatRequest := {|
  model := gemini;
  messages := [
    message (lit "system")
      (lit "You are a cybersecurity expert explaining risks to non-technical users. Use simple, clear language and avoid technical jargon.");
    message (lit "user")
      (lit "Explain in simple, non-technical terms why submitting a form over HTTP (instead of HTTPS) is dangerous. Focus on how this affects regular internet users. Keep it to 2-3 sentences and avoid technical jargon.") ];
  max_tokens := 10000;
  temperature := 7 # 10 |}.

Definition explain_insecure_submission (request : ExplanationRequest)
  : M ExplanationResponse :=
  try_except
    (response <- create insecure_submission_request ;;
     c <- first_content response ;;
     new_ExplanationResponse c true None)
    Exception
    (λ e,
       let fallback_explanation :=
         lit "When a form sends data over HTTP instead of HTTPS, your information travels "
         ++ lit "unencrypted across the internet. This means anyone monitoring network traffic "
         ++ lit "could see your personal details, passwords, or other sensitive information." in
       new_ExplanationResponse (Some fallback_explanation) true
         (Some (lit "AI service unavailable, using fallback explanation: " ++ exc_str e))).

(** ** POST /explain/password_insecure_form *)

(** The keyword arguments of the handler's [create] call. *)
Definition password_insecure_form_request : ChatRequest := {|
  model := gemini;
  messages := [
    message (lit "system")
      (lit "You are a cybersecurity expert explaining risks to non-technical users. Use simple, clear language and avoid technical jargon.");
    message (lit "user")
      (lit "Explain in simple terms why entering a password on an insecure (HTTP) form is extremely dangerous. Focus on what could happen to the user's password and accounts. Keep it to 2-3 sentences and use language that non-technical users can understand.") ];
  max_tokens := 10000;
  temperature := 7 # 10 |}.

Definition explain_password_insecure_form (request : ExplanationRequest)
  : M ExplanationResponse :=
  try_except
    (response <- create password_insecure_form_request ;;
     c <- first_content response ;;
     new_ExplanationResponse c true None)
    Exception
    (λ e,
       let fallback_explanation :=
         lit "Entering your password on an insecure form is extremely risky because hackers can easily "
         ++ lit "intercept your password as it travels to the website. They could then use your password "
         ++ lit "to access your accounts and steal your personal information or money." in
       new_ExplanationResponse (Some fallback_explanation) true
         (Some (lit "AI service unavailable, using fallback explanation: " ++ exc_str e))).

(** ** POST /explain/data_request_concern *)

Definition MAX_HTML_LENGTH : Z := 10000.

(** The local [truncated_html] of the handler. *)
Definition truncated_html (request : DataRequestConcernRequest) : str :=
  if (len (form_html request) >? MAX_HTML_LENGTH)%Z
  then slice_to (form_html request) MAX_HTML_LENGTH ++ lit "... [HTML truncated]"
  else form_html request.

Definition data_request_concern_request (truncated_html : str) : ChatRequest := {|
  model := gemini;
  messages := [
    message (lit "system") (text_lines [
      lit "You are a privacy and security expert helping non-technical users understand data collection practices on web forms.";
      lit "Your task is to analyze the provided HTML of a web form.";
      lit "First, determine the likely purpose of the form based on its HTML content.";
      lit "Then, identify any input fields, labels, or data requests within the HTML that seem unusual, excessive, or suspicious for the form's determined purpose.";
      lit "Explain your findings in simple, clear, non-technical language.";
      lit "Focus on practical advice and what the user should consider.";
      lit "If specific fields are suspicious, mention them and why.";
      lit "If the form seems reasonable for its determined purpose, state that.";
      lit "Keep your explanation concise, ideally 2-4 sentences." ]);
    message (lit "user") (text_lines [
      lit "Please analyze the following HTML snippet of a web form:";
      lit "---HTML START---";
      truncated_html;
      lit "---HTML END---";
      lit "Determine the likely purpose of this form based on its HTML content. Then, identify any input fields or data requests within the HTML that seem unusual, excessive, or suspicious for the form's determined purpose.";
      lit "Explain your findings in simple, non-technical terms. If specific fields are suspicious, mention them and why. If the form seems reasonable for its purpose, state that." ]) ];
  max_tokens := 10000;
  temperature := 7 # 10 |}.

Definition explain_data_request_concern (request : DataRequestConcernRequest)
  : M ExplanationResponse :=
  try_except
    (response <- create (data_request_concern_request (truncated_html request)) ;;
     c <- first_content response ;;
     new_ExplanationResponse c true None)
    Exception
    (λ e,
       let fallback_explanation :=
         (lit "When filling out a '" ++ form_purpose request
            ++ lit "' form, always consider if the information asked is truly necessary for the service. ")
         ++ lit "Be extra careful with sensitive data like your SSN, financial details, or very personal information, especially if the site isn't well-known or doesn't clearly state how your data is used. "
         ++ lit "If something feels off, it's better to be cautious and not submit the form." in
       new_ExplanationResponse (Some fallback_explanation) true
         (Some (lit "AI service unavailable, using fallback explanation: " ++ exc_str e))).

(** ** The document object and the bs4 calls of the handler

    The handler mutates the parsed document in place: [soup([..])] returns
    references to elements, and [decompose] detaches the referenced element
    while the other references stay valid.  A reference is modelled by the
    path of child indices that leads from the root to the element in the
    document as parsed; the mutable part of the document is the set of
    paths already decomposed.  A traversal from the root skips what was
    detached, so decomposing an element below one already decomposed
    changes nothing that [get_text] sees. *)

Abbreviation Path := (list nat).

Record Soup := {
  root_contents : list PageElement;
  decomposed : gset (list nat)
}.

Definition new_soup (contents : list PageElement) : Soup :=
  {| root_contents := contents; decomposed := ∅ |}.

(** [element.descendants] for the element at path [p]: document order,
    detached subtrees skipped. *)
Fixpoint descendants (gone : gset (list nat)) (p : Path) (e : PageElement)
  : list (Path * PageElement) :=
  match e with
  | Tag _ _ cs =>
      (fix children (i : nat) (cs : list PageElement) :=
         match cs with
         | [] => []
         | c :: cs' =>
             (if decide (p ++ [i] ∈ gone) then []
              else (p ++ [i], c) :: descendants gone (p ++ [i]) c)
             ++ children (S i) cs'
         end) 0 cs
  | _ => []
  end.

(** The same traversal over a list of siblings, the first at index [i]. *)
Fixpoint descendants_from (gone : gset (list nat)) (p : Path) (i : nat)
    (cs : list PageElement) : list (Path * PageElement) :=
  match cs with
  | [] => []
  | c :: cs' =>
      (if decide (p ++ [i] ∈ gone) then []
       else (p ++ [i], c) :: descendants gone (p ++ [i]) c)
      ++ descendants_from gone p (S i) cs'
  end.

Definition soup_descendants (soup : Soup) : list (Path * PageElement) :=
  descendants_from (decomposed soup) [] 0 (root_contents soup).

Definition name_in (names : list str) (e : PageElement) : bool :=
  match e with
  | Tag n _ _ => bool_decide (n ∈ names)
  | _ => false
  end.

(** [soup(names)], that is [soup.find_all(names)]: references to the
    matching tags, collected before the loop starts. *)
Definition matching (names : list str) (item : Path * PageElement) : option Path :=
  if name_in names item.2 then Some item.1 else None.

Definition find_all (names : list str) (soup : Soup) : list Path :=
  omap (matching names) (soup_descendants soup).

(** [element.decompose()] *)
Definition decompose (p : Path) (soup : Soup) : Soup :=
  {| root_contents := root_contents soup;
     decomposed := {[ p ]} ∪ decomposed soup |}.

(** the strings [get_text] keeps *)
Definition navigable (item : Path * PageElement) : option str :=
  match item.2 with NavigableString s => Some s | _ => None end.

(** [soup.get_text()] *)
Definition get_text (soup : Soup) : str :=
  concat (omap navigable (soup_descendants soup)).

(** ** str methods used by the clean-up *)

(** [c.isspace()] *)
Definition isspace (c : N) : bool :=
  ((9 <=? c) && (c <=? 13) || (28 <=? c) && (c <=? 32)
   || (c =? 133) || (c =? 160) || (c =? 5760)
   || (8192 <=? c) && (c <=? 8202)
   || (c =? 8232) || (c =? 8233) || (c =? 8239) || (c =? 8287)
   || (c =? 12288))%N.

(** the line boundaries of [str.splitlines] *)
Definition is_linebreak (c : N) : bool :=
  ((10 <=? c) && (c <=? 13) || (28 <=? c) && (c <=? 30)
   || (c =? 133) || (c =? 8232) || (c =? 8233))%N.

Fixpoint lstrip (s : str) : str :=
  match s with
  | c :: s' => if isspace c then lstrip s' else s
  | [] => []
  end.

(** [s.strip()] *)
Definition strip (s : str) : str := reverse (lstrip (reverse (lstrip s))).

Fixpoint splitlines_aux (cur : str) (s : str) : list str :=
  match s with
  | [] => match cur with [] => [] | _ => [reverse cur] end
  | c :: s' =>
      if is_linebreak c then
        reverse cur ::
          (if (c =? 13)%N
           then match s' with
                | d :: s'' => if (d =? 10)%N then splitlines_aux [] s''
                              else splitlines_aux [] s'
                | [] => splitlines_aux [] s'
                end
           else splitlines_aux [] s')
      else splitlines_aux (c :: cur) s'
  end.

(** [s.splitlines()] *)
Definition splitlines (s : str) : list str := splitlines_aux [] s.

Fixpoint split_aux (sep : str) (skip : nat) (cur : str) (s : str) : list str :=
  match s with
  | [] => [reverse cur]
  | c :: s' =>
      match skip with
      | S k => split_aux sep k cur s'
      | 0 =>
          if starts_with s sep
          then reverse cur :: split_aux sep (length sep - 1) [] s'
          else split_aux sep 0 (c :: cur) s'
      end
  end.

(** [s.split(sep)] for a non-empty separator *)
Definition split (sep : str) (s : str) : list str := split_aux sep 0 [] s.

(** The three clean-up lines of the handler. *)
Definition clean_up (text_content : str) : str :=
  let lines := strip <$> splitlines text_content in
  let chunks := lines ≫= (λ line, strip <$> split (lit "  ") line) in
  join (lit " ") (filter (λ chunk, chunk ≠ []) chunks).

(** The length limit before prompting. *)
Definition limit_text (text_content : str) : str :=
  if (len text_content >? 8000)%Z
  then slice_to text_content 8000 ++ lit "... [content truncated]"
  else text_content.

(** ** POST /analyze_privacy_policy *)

Definition privacy_policy_request (text_content : str) : ChatRequest := {|
  model := gemini;
  messages := [
    message (lit "system")
      (lit "You are a privacy expert helping non-technical users understand privacy policies. Focus on identifying concerning practices in simple, clear language.");
    message (lit "user") (text_lines [
      lit "Please analyze this privacy policy and identify the main red flags or concerning practices that a regular internet user should be aware of. ";
      [];
      lit "Privacy Policy Text:";
      text_content;
      [];
      lit "Please provide a concise summary focusing on:";
      lit "1. How the company shares or sells user data";
      lit "2. What data they collect beyond what's necessary";
      lit "3. How long they keep user data";
      lit "4. Any concerning clauses about data usage";
      [];
      lit "Format your response as bullet points in simple, non-technical language. Keep it to 3-4 key points maximum. If the policy seems reasonable, say so." ]) ];
  max_tokens := 30000;
  temperature := 7 # 10 |}.

(** [str(x)] of an optional string inside an f-string *)
Definition format_opt (x : option str) : str :=
  match x with Some s => s | None => lit "None" end.

(** [for script in soup(["script", "style"]): script.decompose()] *)
Definition remove_script_and_style (soup : Soup) : Soup :=
  foldl (λ soup script, decompose script soup) soup
        (find_all [lit "script"; lit "style"] soup).

(** The handler's [text_content] after the clean-up, for a parsed
    document: the decompose loop, [get_text], the clean-up. *)
Definition extracted_text (contents : list PageElement) : str :=
  let soup := remove_script_and_style (new_soup contents) in
  let text_content := get_text soup in
  clean_up text_content.

(** The text interpolated into the prompt: the length limit applied. *)
Definition policy_text (contents : list PageElement) : str :=
  limit_text (extracted_text contents).

Definition analyze_privacy_policy (request : PrivacyPolicyRequest)
  : M ExplanationResponse :=
  try_except
    (fetched <-
       try_except
         (response <- get (policy_url request) ;;
          raise_for_status response ;;
          ret (inr response))
         HTTPError
         (λ e,
            r <- new_ExplanationResponse
                   (Some (lit "Unable to access the privacy policy. The link may be broken or the site may be blocking automated access."))
                   false
                   (Some (lit "HTTP error: " ++ exc_str e)) ;;
            ret (inl r)) ;;
     match fetched with
     | inl early => ret early
     | inr response =>
         contents <- BeautifulSoup (httpx.content response) ;;
         let text_content := policy_text contents in
         print (lit "Making AI request...") ;;
         try_except
           (ai_response <- create (privacy_policy_request text_content) ;;
            print (lit "AI request completed successfully") ;;
            c <- first_content ai_response ;;
            print (lit "AI response: " ++ format_opt c) ;;
            c <- first_content ai_response ;;
            new_ExplanationResponse c true None)
           Exception
           (λ ai_error,
              print (lit "AI request failed with error: " ++ exc_str ai_error) ;;
              raise ai_error)
     end)
    Exception
    (λ e,
       let fallback_explanation :=
         lit "Unable to analyze this privacy policy automatically. "
         ++ lit "When reviewing privacy policies yourself, look for: "
         ++ (bullet ++ lit " How they share your data with third parties ")
         ++ (bullet ++ lit " What data they collect beyond what's necessary for their service ")
         ++ (bullet ++ lit " How long they keep your information ")
         ++ (bullet ++ lit " Whether you can delete your data easily") in
       new_ExplanationResponse (Some fallback_explanation) true
         (Some (lit "Analysis service unavailable: " ++ exc_str e))).

(** ** The route table of the application *)

Inductive Call :=
| InsecureSubmission (request : ExplanationRequest)
| PasswordInsecureForm (request : ExplanationRequest)
| DataRequestConcern (request : DataRequestConcernRequest)
| AnalyzePrivacyPolicy (request : PrivacyPolicyRequest).

Definition dispatch (c : Call) : M ExplanationResponse :=
  match c with
  | InsecureSubmission request => explain_insecure_submission request
  | PasswordInsecureForm request => explain_password_insecure_form request
  | DataRequestConcern request => explain_data_request_concern request
  | AnalyzePrivacyPolicy request => analyze_privacy_policy request
  end.

(** The AI calls recorded in a trace. *)
Definition ai_calls (t : list Event) : list ChatRequest :=
  omap (λ ev, match ev with AiCall r => Some r | _ => None end) t.

(** [response.choices[0].message.content], when it evaluates. *)
Definition answer (completion : openai.ChatCompletion) : option (option str) :=
  match openai.choices completion with
  | c :: _ => Some (openai.content (openai.message c))
  | [] => None
  end.

(** ** Sample environments *)

Definition exc (c : PyClass) (s : string) : PyExc :=
  {| exc_class := c; exc_str := lit s |}.

Definition completion_with (s : str) : openai.ChatCompletion :=
  {| openai.choices := [ {| openai.message := {| openai.content := Some s |} |} ] |}.

Definition page (markup : list Byte.byte) : httpx.Response :=
  {| httpx.status_code := 200; httpx.content := markup |}.

Definition sample_env
    (ai : Result openai.ChatCompletion) (fetch : Result httpx.Response)
    (doc : list PageElement) : Env :=
  {| chat_completions_create := λ _, ai;
     http_get := λ _, fetch;
     status_error_str := λ _, lit "Client error '404 Not Found'";
     html_parser := λ _, doc;
     validation_error_str := lit "1 validation error for ExplanationResponse";
     stdout_encodes := λ _, true;
     encode_error_str := λ _, lit "'ascii' codec can't encode character";
     validation_error_ascii := eq_refl;
     encode_error_ascii := λ _, eq_refl |}.

Definition quota_exceeded : PyExc := exc Exception "Error code: 429".
Definition connect_timeout : PyExc := exc HTTPError "timed out".

Definition env_ai_down : Env :=
  sample_env (Raise quota_exceeded) (Return (page [])) [NavigableString (lit "We sell data.")].

Definition env_site_down : Env :=
  sample_env (Return (completion_with (lit "Looks fine."))) (Raise connect_timeout) [].

Definition env_empty_answer : Env :=
  sample_env (Return (completion_with [])) (Return (page [])) [NavigableString (lit "We sell data.")].

Definition env_long_page : Env :=
  sample_env (Return (completion_with (lit "Looks fine."))) (Return (page []))
    [NavigableString (replicate (Z.to_nat 8001) 97%N)].

Definition long_form : DataRequestConcernRequest :=
  {| form_purpose := lit "newsletter signup";
     form_html := replicate (Z.to_nat 10001) 60%N |}.

(** The invariant of the specification: whatever a handler returns has a
    non-empty explanation. *)
Definition explanation_never_empty : Prop :=
  ∀ (env : Env) (call : Call) (t : list Event) (r : ExplanationResponse),
    dispatch call env = (t, Return r) → explanation r ≠ [].

(** ** What the visible text of a document is

    The strings of a document that lie in no [script] and no [style]
    element, in document order, concatenated. *)
Fixpoint visible_text (e : PageElement) : str :=
  match e with
  | Tag n _ cs =>
      if bool_decide (n ∈ [lit "script"; lit "style"]) then []
      else concat (visible_text <$> cs)
  | NavigableString s => s
  | SpecialString _ => []
  end.

(** Two documents that differ at most inside their [script] and [style]
    elements. *)
#[local] Unset Elimination Schemes.
Inductive same_outside_script_style : PageElement → PageElement → Prop :=
| same_hidden n a cs cs' :
    n ∈ [lit "script"; lit "style"] →
    same_outside_script_style (Tag n a cs) (Tag n a cs')
| same_tag n a cs cs' :
    Forall2 same_outside_script_style cs cs' →
    same_outside_script_style (Tag n a cs) (Tag n a cs')
| same_string s :
    same_outside_script_style (NavigableString s) (NavigableString s)
| same_special s :
    same_outside_script_style (SpecialString s) (SpecialString s).
#[local] Set Elimination Schemes.

(** The element a reference designates in the document as parsed. *)
Fixpoint element_at (q : Path) (cs : list PageElement) : option PageElement :=
  match q with
  | [] => None
  | [k] => cs !! k
  | k :: rest =>
      match cs !! k with
      | Some (Tag _ _ cs') => element_at rest cs'
      | _ => None
      end
  end.

Definition tracker_page : list PageElement :=
  [ Tag (lit "html") [] [
      Tag (lit "head") [] [
        Tag (lit "style") [] [NavigableString (lit "p {color:red}")];
        Tag (lit "title") [] [NavigableString (lit "Policy")] ];
      Tag (lit "body") [] [
        NavigableString (lit "  We  sell   data.");
        Tag (lit "script") [] [NavigableString (lit "track(1)")];
        SpecialString (lit "a comment");
        Tag (lit "p") [] [NavigableString (lit " Kept forever. ")] ] ] ].

Definition tracker_page' : list PageElement :=
  [ Tag (lit "html") [] [
      Tag (lit "head") [] [
        Tag (lit "style") [] [];
        Tag (lit "title") [] [NavigableString (lit "Policy")] ];
      Tag (lit "body") [] [
        NavigableString (lit "  We  sell   data.");
        Tag (lit "script") [] [NavigableString (lit "fingerprint()"); NavigableString (lit "beacon()")];
        SpecialString (lit "a comment");
        Tag (lit "p") [] [NavigableString (lit " Kept forever. ")] ] ] ].

(** [element.contents] *)
Definition contents_of (e : PageElement) : list PageElement :=
  match e with Tag _ _ cs => cs | _ => [] end.

Definition env_tracker_page : Env :=
  sample_env (Return (completion_with (lit "Looks fine."))) (Return (page [])) tracker_page.

Definition env_tracker_page' : Env :=
  sample_env (Raise quota_exceeded) (Return (page [])) tracker_page'.

(** ** Further definitions for the properties of the handlers *)

(** The fetches recorded in a trace. *)
Definition http_gets (t : list Event) : list str :=
  omap (λ ev, match ev with HttpGet url => Some url | _ => None end) t.

(** The environment with another AI adapter. *)
Definition with_ai (env : Env) (ai : ChatRequest → Result openai.ChatCompletion) : Env :=
  {| chat_completions_create := ai;
     http_get := http_get env;
     status_error_str := status_error_str env;
     html_parser := html_parser env;
     validation_error_str := validation_error_str env;
     stdout_encodes := stdout_encodes env;
     encode_error_str := encode_error_str env;
     validation_error_ascii := validation_error_ascii env;
     encode_error_ascii := encode_error_ascii env |}.

(** The exception the handler body raises on a completion it cannot use:
    [IndexError] for no choice, the pydantic error for a [None] content. *)
Definition unusable (env : Env) (completion : openai.ChatCompletion) : option PyExc :=
  match answer completion with
  | None => Some {| exc_class := Exception; exc_str := lit "list index out of range" |}
  | Some None => Some {| exc_class := Exception; exc_str := validation_error_str env |}
  | Some (Some _) => None
  end.

(** [d.get(k)] on a dict literal *)
Fixpoint dict_get (k : str) (d : list (str * str)) : option str :=
  match d with
  | [] => None
  | (k', v) :: d' => if bool_decide (k' = k) then Some v else dict_get k d'
  end.

(** The characters a request hands to the model: the message contents. *)
Definition prompt_chars (q : ChatRequest) : Z :=
  foldr (λ m n, (match dict_get (lit "content") m with
                 | Some content => len content
                 | None => 0
                 end + n)%Z) 0%Z (messages q).

Definition env_no_choice : Env :=
  sample_env (Return {| openai.choices := [] |}) (Return (page []))
    [NavigableString (lit "We sell data.")].

Definition invalid_url : PyExc := exc Exception "Invalid port: 'x'".

Definition env_bad_url : Env :=
  sample_env (Return (completion_with (lit "Looks fine."))) (Raise invalid_url) [].

Definition interrupted : PyExc := exc BaseException "".

Definition env_interrupted : Env :=
  sample_env (Raise interrupted) (Return (page [])) [NavigableString (lit "We sell data.")].

Definition env_answering : Env :=
  sample_env (Return (completion_with (lit "Looks fine."))) (Return (page []))
    [NavigableString (lit "We sell data.")].

Definition login_form : DataRequestConcernRequest :=
  {| form_purpose := lit "login"; form_html := lit "<form></form>" |}.

Definition example_policy : PrivacyPolicyRequest :=
  {| policy_url := lit "https://example.org/privacy" |}.

(** The chunks of the clean-up, before they are joined. *)
Definition chunks_of (text_content : str) : list str :=
  filter (λ chunk, chunk ≠ [])
    ((strip <$> splitlines text_content) ≫= (λ line, strip <$> split (lit "  ") line)).

(** no two adjacent spaces *)
Fixpoint single_spaced (l : str) : Prop :=
  match l with
  | x :: l' => ¬ (x = 32%N ∧ head l' = Some 32%N) ∧ single_spaced l'
  | [] => True
  end.

Definition blank_page : list PageElement :=
  [ Tag (lit "html") [] [
      Tag (lit "head") [] [ Tag (lit "script") [] [NavigableString (lit "track(1)")] ];
      Tag (lit "body") [] [ NavigableString (nl ++ lit "   " ++ nl) ] ] ].

Definition env_blank_page : Env :=
  sample_env (Return (completion_with (lit "Looks fine."))) (Return (page [])) blank_page.

Record OpenAI := { api_key : str; base_url : str }.

(** [not x] for an optional string *)
Definition falsy (x : option str) : bool :=
  match x with Some (_ :: _) => false | _ => true end.

(** The top-level statements of main.py that configure the client, for the
    process environment [environ] as [load_dotenv] left it. *)
Definition configure_client (environ : gmap (list N) (list N)) : Result OpenAI :=
  let GOOGLE_API_KEY := environ !! lit "GOOGLE_API_KEY" in
  if falsy GOOGLE_API_KEY
  then Raise {| exc_class := Exception;
                exc_str := lit "GOOGLE_API_KEY environment variable is required" |}
  else Return {| api_key := default [] GOOGLE_API_KEY;
                 base_url := lit "https://generativelanguage.googleapis.com/v1beta/openai/" |}.

(** The environment with another encoding of [sys.stdout]. *)
Definition with_stdout (env : Env) (encodes : N → bool) : Env :=
  {| chat_completions_create := chat_completions_create env;
     http_get := http_get env;
     status_error_str := status_error_str env;
     html_parser := html_parser env;
     validation_error_str := validation_error_str env;
     stdout_encodes := encodes;
     encode_error_str := encode_error_str env;
     validation_error_ascii := validation_error_ascii env;
     encode_error_ascii := encode_error_ascii env |}.

Definition bullet_error : PyExc :=
  {| exc_class := Exception;
     exc_str := lit "Error code: 400 - unsupported character " ++ bullet |}.

(** An ascii console, and an AI call that fails with a text beyond ASCII. *)
Definition env_ascii_console_ai_down : Env :=
  with_stdout
    (sample_env (Raise bullet_error) (Return (page []))
       [NavigableString (lit "We sell data.")])
    (λ _, false).

(** An ascii console, and an AI answer beyond ASCII. *)
Definition env_ascii_console_answering : Env :=
  with_stdout
    (sample_env (Return (completion_with (bullet ++ lit " They sell your data.")))
       (Return (page [])) [NavigableString (lit "We sell data.")])
    (λ _, false).

(** * Theorems *)

Arguments lit : simpl never.
Arguments isinstance : simpl never.
Arguments printable : simpl never.

(** ** Running a handler *)

Lemma printable_ascii (env : Env) (s : str) :
  forallb is_ascii s = true → printable env s = true.
Proof.
  unfold printable. rewrite !forallb_forall. intros Hs c Hc.
  by rewrite (Hs c Hc).
Qed.

Lemma Return_inj {A} (a b : A) : Return a = Return b → a = b.
Proof. congruence. Qed.

(** The text is made of literals and of the texts of library errors. *)
Ltac ascii_text :=
  cbn [exc_str];
  rewrite ?forallb_app, ?validation_error_ascii, ?encode_error_ascii;
  vm_compute; reflexivity.

Ltac run_handler :=
  unfold dispatch, explain_insecure_submission, explain_password_insecure_form,
    explain_data_request_concern, analyze_privacy_policy, health_check,
    try_except, bind, create, get, raise_for_status, BeautifulSoup, print,
    first_content, index0, new_ExplanationResponse, ret, raise.

(** One step of a run: use what is known of the environment, or split
    on what it answers. *)
Ltac case_step :=
  match goal with
  | H : isinstance ?e ?c = _ |- context [isinstance ?e ?c] => rewrite H
  | H : chat_completions_create ?env ?q = _ |- context [chat_completions_create ?env ?q] => rewrite H
  | H : http_get ?env ?u = _ |- context [http_get ?env ?u] => rewrite H
  | H : httpx.is_success ?r = _ |- context [httpx.is_success ?r] => rewrite H
  | |- context [printable (with_ai ?env ?ai) ?s] =>
      change (printable (with_ai env ai) s) with (printable env s)
  | H : printable ?env ?s = _ |- context [printable ?env ?s] => rewrite H
  | |- context [printable ?env ?s] => rewrite (printable_ascii env s) by ascii_text
  | |- context [isinstance {| exc_class := ?c; exc_str := ?s |} ?d] =>
      change (isinstance {| exc_class := c; exc_str := s |} d) with (issubclass c d);
      cbn [issubclass]
  | |- context [chat_completions_create ?env ?q] =>
      destruct (chat_completions_create env q) as [[[|[[[?|]]] ?]]|?] eqn:?
  | |- context [http_get ?env ?u] => destruct (http_get env u) eqn:?
  | |- context [httpx.is_success ?r] => destruct (httpx.is_success r) eqn:?
  | |- context [isinstance ?e ?c] => destruct (isinstance e c) eqn:?
  | |- context [printable ?env ?s] => destruct (printable env s) eqn:?
  end.

Ltac handler_cases := run_handler; repeat (case_step; cbn).

(** Use [Hrun : (trace, result) = (t, Return r)]. *)
Ltac returned Hrun :=
  let Ht := fresh in
  pose proof (f_equal fst Hrun) as Ht;
  apply (f_equal snd) in Hrun;
  cbn [fst snd] in Ht, Hrun; subst;
  first [discriminate Hrun | apply Return_inj in Hrun; subst].

(** Use [H : AiCall q ∈ trace] for a trace that is known. *)
Ltac elem_cases H :=
  repeat (apply elem_of_cons in H as [H|H];
          [first [discriminate H | injection H as <- | injection H as ->]|]);
  try (by apply elem_of_nil in H).

(** ** GET / *)

(** C9: [health_check] returns the fixed payload
    {status: healthy, service: TRACE AI Backend, version: 1.0.0} in every
    environment, whatever the AI adapter and the HTTP client do; it
    performs no call and raises nothing. *)
Theorem health_check_fixed_payload (env : Env) :
  health_check env =
    ([], Return [ (lit "status", lit "healthy");
                  (lit "service", lit "TRACE AI Backend");
                  (lit "version", lit "1.0.0") ]).
Proof. reflexivity. Qed.

(** ** Fixed-prompt endpoints *)

(** C1: when the AI call of a fixed-prompt endpoint raises an exception
    [e] (an instance of [Exception], what the handler's except clause
    names), the handler returns the endpoint's fallback string exactly,
    [success = true], and the error
    'AI service unavailable, using fallback explanation: ' followed by
    [str(e)]. *)
Theorem fixed_prompt_fallback (env : Env) (request : ExplanationRequest) (e : PyExc) :
  isinstance e Exception = true →
  (chat_completions_create env insecure_submission_request = Raise e →
   (explain_insecure_submission request env).2 =
     Return {|
       explanation := lit "When a form sends data over HTTP instead of HTTPS, your information travels unencrypted across the internet. This means anyone monitoring network traffic could see your personal details, passwords, or other sensitive information.";
       success := true;
       error := Some (lit "AI service unavailable, using fallback explanation: " ++ exc_str e) |})
  ∧
  (chat_completions_create env password_insecure_form_request = Raise e →
   (explain_password_insecure_form request env).2 =
     Return {|
       explanation := lit "Entering your password on an insecure form is extremely risky because hackers can easily intercept your password as it travels to the website. They could then use your password to access your accounts and steal your personal information or money.";
       success := true;
       error := Some (lit "AI service unavailable, using fallback explanation: " ++ exc_str e) |}).
Proof.
  intros Hexc. split; intros Hai; run_handler; rewrite Hai, Hexc; reflexivity.
Qed.

Lemma fixed_prompt_fallback_witness :
  (explain_insecure_submission Build_ExplanationRequest env_ai_down).2 =
    Return {|
      explanation := lit "When a form sends data over HTTP instead of HTTPS, your information travels unencrypted across the internet. This means anyone monitoring network traffic could see your personal details, passwords, or other sensitive information.";
      success := true;
      error := Some (lit "AI service unavailable, using fallback explanation: Error code: 429") |}.
Proof.
  apply (proj1 (fixed_prompt_fallback env_ai_down Build_ExplanationRequest
                  quota_exceeded eq_refl)).
  reflexivity.
Defined.

(** C10: the [create] call of a fixed-prompt endpoint is a constant of the
    program (model, messages, max_tokens and temperature are literals): every
    run makes exactly that one call whatever the request, two requests give
    the same run in the same environment, and two environments that answer
    that call alike give the same response. *)
Theorem fixed_prompt_noninterference
    (env env' : Env) (request request' : ExplanationRequest) :
  ((explain_insecure_submission request env).1 = [AiCall insecure_submission_request]
   ∧ (explain_password_insecure_form request env).1 = [AiCall password_insecure_form_request])
  ∧ (model insecure_submission_request = lit "gemini-2.5-flash-preview-05-20"
     ∧ max_tokens insecure_submission_request = 10000%Z
     ∧ temperature insecure_submission_request = (7 # 10)%Q
     ∧ model password_insecure_form_request = lit "gemini-2.5-flash-preview-05-20"
     ∧ max_tokens password_insecure_form_request = 10000%Z
     ∧ temperature password_insecure_form_request = (7 # 10)%Q)
  ∧ (explain_insecure_submission request env = explain_insecure_submission request' env
     ∧ explain_password_insecure_form request env = explain_password_insecure_form request' env)
  ∧ (validation_error_str env = validation_error_str env' →
     (chat_completions_create env insecure_submission_request
        = chat_completions_create env' insecure_submission_request →
      explain_insecure_submission request env = explain_insecure_submission request' env')
     ∧
     (chat_completions_create env password_insecure_form_request
        = chat_completions_create env' password_insecure_form_request →
      explain_password_insecure_form request env = explain_password_insecure_form request' env')).
Proof.
  repeat split.
  - run_handler.
    destruct (chat_completions_create env _) as [[[|c ?]]|e]; cbn;
      try destruct (openai.content _); cbn; try destruct (isinstance e _); reflexivity.
  - run_handler.
    destruct (chat_completions_create env _) as [[[|c ?]]|e]; cbn;
      try destruct (openai.content _); cbn; try destruct (isinstance e _); reflexivity.
  - intros Hai. run_handler. rewrite Hai, H.
    destruct (chat_completions_create env' _) as [[[|c ?]]|e]; reflexivity.
  - intros Hai. run_handler. rewrite Hai, H.
    destruct (chat_completions_create env' _) as [[[|c ?]]|e]; reflexivity.
Qed.

Lemma fixed_prompt_noninterference_witness :
  explain_insecure_submission Build_ExplanationRequest env_ai_down
  = explain_insecure_submission Build_ExplanationRequest
      (sample_env (Raise quota_exceeded) (Raise connect_timeout) []).
Proof.
  apply (fixed_prompt_noninterference env_ai_down
           (sample_env (Raise quota_exceeded) (Raise connect_timeout) [])
           Build_ExplanationRequest Build_ExplanationRequest);
    reflexivity.
Defined.

(** ** Privacy-policy analysis *)

(** C2: when the page fetch fails with an HTTP-layer error [e] (the [get]
    raises an [httpx.HTTPError], or the response is not a 2xx and
    [raise_for_status] raises), the handler does the fetch and nothing else
    (no AI call), and returns [success = false], the static
    'Unable to access the privacy policy...' explanation and the error
    'HTTP error: ' followed by [str(e)]; nothing is raised. *)
Theorem privacy_policy_fetch_failure
    (env : Env) (request : PrivacyPolicyRequest) (e : PyExc) :
  (http_get env (policy_url request) = Raise e ∧ isinstance e HTTPError = true)
  ∨ (∃ response,
        http_get env (policy_url request) = Return response
        ∧ httpx.is_success response = false
        ∧ e = {| exc_class := HTTPError; exc_str := status_error_str env response |}) →
  analyze_privacy_policy request env =
    ([HttpGet (policy_url request)],
     Return {|
       explanation := lit "Unable to access the privacy policy. The link may be broken or the site may be blocking automated access.";
       success := false;
       error := Some (lit "HTTP error: " ++ exc_str e) |}).
Proof.
  intros [[Hget Hcls] | (response & Hget & Hfail & ->)]; run_handler;
    rewrite Hget; [rewrite Hcls | rewrite Hfail]; reflexivity.
Qed.

Lemma privacy_policy_fetch_failure_witness :
  analyze_privacy_policy {| policy_url := lit "https://example.invalid/privacy" |} env_site_down =
    ([HttpGet (lit "https://example.invalid/privacy")],
     Return {|
       explanation := lit "Unable to access the privacy policy. The link may be broken or the site may be blocking automated access.";
       success := false;
       error := Some (lit "HTTP error: timed out") |}).
Proof.
  apply (privacy_policy_fetch_failure env_site_down
           {| policy_url := lit "https://example.invalid/privacy" |} connect_timeout).
  left. split; reflexivity.
Defined.

(** After a successful fetch, an exception [e] of the AI call (an instance
    of [Exception]) whose text the console can print is answered with the
    manual-review checklist, [success = true], and the error
    'Analysis service unavailable: ' followed by [str(e)]. *)
Lemma privacy_policy_ai_failure_printed
    (env : Env) (request : PrivacyPolicyRequest) (response : httpx.Response) (e : PyExc) :
  http_get env (policy_url request) = Return response →
  httpx.is_success response = true →
  chat_completions_create env
    (privacy_policy_request (policy_text (html_parser env (httpx.content response)))) = Raise e →
  isinstance e Exception = true →
  printable env (lit "AI request failed with error: " ++ exc_str e) = true →
  (analyze_privacy_policy request env).2 =
    Return {|
      explanation :=
        lit "Unable to analyze this privacy policy automatically. When reviewing privacy policies yourself, look for: "
        ++ bullet ++ lit " How they share your data with third parties "
        ++ bullet ++ lit " What data they collect beyond what's necessary for their service "
        ++ bullet ++ lit " How long they keep your information "
        ++ bullet ++ lit " Whether you can delete your data easily";
      success := true;
      error := Some (lit "Analysis service unavailable: " ++ exc_str e) |}.
Proof.
  intros Hget Hok Hai Hexc Hprint. handler_cases. reflexivity.
Qed.

Lemma privacy_policy_ai_failure_printed_witness :
  (analyze_privacy_policy {| policy_url := lit "https://example.org/privacy" |} env_ai_down).2 =
    Return {|
      explanation :=
        lit "Unable to analyze this privacy policy automatically. When reviewing privacy policies yourself, look for: "
        ++ bullet ++ lit " How they share your data with third parties "
        ++ bullet ++ lit " What data they collect beyond what's necessary for their service "
        ++ bullet ++ lit " How long they keep your information "
        ++ bullet ++ lit " Whether you can delete your data easily";
      success := true;
      error := Some (lit "Analysis service unavailable: Error code: 429") |}.
Proof.
  apply (privacy_policy_ai_failure_printed env_ai_down
           {| policy_url := lit "https://example.org/privacy" |} (page []) quota_exceeded);
    reflexivity.
Defined.

(** When the console cannot print the text of [e], the debugging [print]
    of the inner handler raises [UnicodeEncodeError] before
    [raise ai_error] is reached, and the outer handler reports the error
    of the [print] instead of [str(e)]. *)
Lemma privacy_policy_ai_failure_not_printed
    (env : Env) (request : PrivacyPolicyRequest) (response : httpx.Response) (e : PyExc) :
  http_get env (policy_url request) = Return response →
  httpx.is_success response = true →
  chat_completions_create env
    (privacy_policy_request (policy_text (html_parser env (httpx.content response)))) = Raise e →
  isinstance e Exception = true →
  printable env (lit "AI request failed with error: " ++ exc_str e) = false →
  (analyze_privacy_policy request env).2 =
    Return {|
      explanation :=
        lit "Unable to analyze this privacy policy automatically. When reviewing privacy policies yourself, look for: "
        ++ bullet ++ lit " How they share your data with third parties "
        ++ bullet ++ lit " What data they collect beyond what's necessary for their service "
        ++ bullet ++ lit " How long they keep your information "
        ++ bullet ++ lit " Whether you can delete your data easily";
      success := true;
      error :=
        Some (lit "Analysis service unavailable: "
              ++ encode_error_str env (lit "AI request failed with error: " ++ exc_str e)) |}.
Proof.
  intros Hget Hok Hai Hexc Hprint. handler_cases. reflexivity.
Qed.

Lemma privacy_policy_ai_failure_not_printed_witness :
  (analyze_privacy_policy example_policy env_ascii_console_ai_down).1
  = [ HttpGet (lit "https://example.org/privacy");
      Print (lit "Making AI request...");
      AiCall (privacy_policy_request (lit "We sell data.")) ]
  ∧ ∃ r, (analyze_privacy_policy example_policy env_ascii_console_ai_down).2 = Return r.
Proof.
  split; [reflexivity|]. eexists.
  apply (privacy_policy_ai_failure_not_printed env_ascii_console_ai_down
           example_policy (page []) bullet_error); reflexivity.
Defined.

(** C3: the code at an AI exception whose text the console cannot print
    (here a message with the bullet U+2022 and an ascii console).  The
    checklist and [success = true] are returned, but the [print] of line
    287 raises before the exception is re-raised to the outer handler:
    the error carries the text of the [UnicodeEncodeError], in which the
    text of the AI exception does not occur. *)
Theorem privacy_policy_ai_failure_unprintable :
  (analyze_privacy_policy example_policy env_ascii_console_ai_down).2 =
    Return {|
      explanation :=
        lit "Unable to analyze this privacy policy automatically. When reviewing privacy policies yourself, look for: "
        ++ bullet ++ lit " How they share your data with third parties "
        ++ bullet ++ lit " What data they collect beyond what's necessary for their service "
        ++ bullet ++ lit " How long they keep your information "
        ++ bullet ++ lit " Whether you can delete your data easily";
      success := true;
      error := Some (lit "Analysis service unavailable: 'ascii' codec can't encode character") |}
  ∧ chat_completions_create env_ascii_console_ai_down
      (privacy_policy_request (lit "We sell data.")) = Raise bullet_error
  ∧ lit "Analysis service unavailable: 'ascii' codec can't encode character"
    ≠ lit "Analysis service unavailable: " ++ exc_str bullet_error
  ∧ containsb (lit "Analysis service unavailable: 'ascii' codec can't encode character")
      (exc_str bullet_error) = false.
Proof.
  split; [reflexivity|]. split; [reflexivity|].
  split; [discriminate|reflexivity].
Qed.

(** ** Data-request-concern endpoint *)

Lemma len_take_le {A} (s : list A) (n : Z) :
  (0 ≤ n)%Z → (n ≤ len s)%Z → len (take (Z.to_nat n) s) = n.
Proof. unfold len. intros Hn Hs. rewrite length_take. lia. Qed.

Lemma len_app {A} (s t : list A) : len (s ++ t) = (len s + len t)%Z.
Proof. unfold len. rewrite length_app. lia. Qed.

(** C4: the handler's one AI call carries [truncated_html] in its user
    message, between the lines '---HTML START---' and '---HTML END---'.
    When [form_html] is longer than 10,000 characters, [truncated_html]
    is its first 10,000 characters followed by '... [HTML truncated]': it
    ends with the marker and its length is 10,000 plus the marker's
    length.  Otherwise it is [form_html] unchanged. *)
Theorem form_html_truncation (env : Env) (request : DataRequestConcernRequest) :
  let html := form_html request in
  let marker := lit "... [HTML truncated]" in
  (explain_data_request_concern request env).1
    = [AiCall (data_request_concern_request (truncated_html request))]
  ∧ (∃ system : str,
       (explain_data_request_concern request env).1
       = [AiCall {|
            model := lit "gemini-2.5-flash-preview-05-20";
            messages := [
              [ (lit "role", lit "system"); (lit "content", system) ];
              [ (lit "role", lit "user");
                (lit "content",
                 lit "Please analyze the following HTML snippet of a web form:" ++ nl
                 ++ lit "---HTML START---" ++ nl
                 ++ truncated_html request ++ nl
                 ++ lit "---HTML END---" ++ nl
                 ++ lit "Determine the likely purpose of this form based on its HTML content. Then, identify any input fields or data requests within the HTML that seem unusual, excessive, or suspicious for the form's determined purpose." ++ nl
                 ++ lit "Explain your findings in simple, non-technical terms. If specific fields are suspicious, mention them and why. If the form seems reasonable for its purpose, state that.") ] ];
            max_tokens := 10000;
            temperature := 7 # 10 |}])
  ∧ ((len html > 10000)%Z →
       truncated_html request = take (Z.to_nat 10000) html ++ marker
       ∧ marker `suffix_of` truncated_html request
       ∧ len (truncated_html request) = (10000 + len marker)%Z)
  ∧ ((len html ≤ 10000)%Z → truncated_html request = html).
Proof.
  intros html marker.
  assert ((explain_data_request_concern request env).1
          = [AiCall (data_request_concern_request (truncated_html request))]) as Hcall.
  { run_handler.
    destruct (chat_completions_create env _) as [[[|c ?]]|e]; cbn;
      try destruct (openai.content _); cbn; try destruct (isinstance e _); reflexivity. }
  split; [exact Hcall|]. split; [|split].
  - eexists. rewrite Hcall. reflexivity.
  - intros Hlong. unfold truncated_html, MAX_HTML_LENGTH, slice_to.
    fold html. fold marker.
    destruct (Z.gtb_spec (len html) 10000) as [_|?]; [|lia].
    change (10000 <? 0)%Z with false. cbn match.
    split; [reflexivity|]. split.
    + by apply suffix_app_r.
    + rewrite len_app, len_take_le; lia.
  - intros Hshort. unfold truncated_html, MAX_HTML_LENGTH. fold html.
    destruct (Z.gtb_spec (len html) 10000) as [?|_]; [lia|reflexivity].
Qed.

Lemma form_html_truncation_witness :
  (len (form_html long_form) > 10000)%Z
  ∧ len (truncated_html long_form) = 10020%Z
  ∧ (len (lit "<form></form>") ≤ 10000)%Z
  ∧ truncated_html login_form = lit "<form></form>"
  ∧ ∃ system : str,
      (explain_data_request_concern login_form env_ai_down).1
      = [AiCall {|
           model := lit "gemini-2.5-flash-preview-05-20";
           messages := [
             [ (lit "role", lit "system"); (lit "content", system) ];
             [ (lit "role", lit "user");
               (lit "content",
                lit "Please analyze the following HTML snippet of a web form:" ++ nl
                ++ lit "---HTML START---" ++ nl
                ++ lit "<form></form>" ++ nl
                ++ lit "---HTML END---" ++ nl
                ++ lit "Determine the likely purpose of this form based on its HTML content. Then, identify any input fields or data requests within the HTML that seem unusual, excessive, or suspicious for the form's determined purpose." ++ nl
                ++ lit "Explain your findings in simple, non-technical terms. If specific fields are suspicious, mention them and why. If the form seems reasonable for its purpose, state that.") ] ];
           max_tokens := 10000;
           temperature := 7 # 10 |}].
Proof.
  split; [reflexivity|]. split.
  - destruct (form_html_truncation env_ai_down long_form) as (_ & _ & Hlong & _).
    destruct Hlong as (_ & _ & ->); reflexivity.
  - split; [discriminate|].
    destruct (form_html_truncation env_ai_down login_form)
      as (_ & (system & Hcall) & _ & Hshort).
    assert (truncated_html login_form = lit "<form></form>") as Hsent
      by (apply Hshort; discriminate).
    split; [exact Hsent|]. exists system. rewrite Hcall, Hsent. reflexivity.
Defined.

Lemma contains_middle (a t b : str) : contains (a ++ t ++ b) t.
Proof. by exists a, b. Qed.

(** C6: when the AI call of the data-request-concern endpoint raises an
    exception [e] (an instance of [Exception]), the handler returns the
    caution template with the caller's [form_purpose] interpolated between
    quotes, so the explanation contains [form_purpose] verbatim, and
    [success = true]. *)
Theorem data_request_fallback_mentions_purpose
    (env : Env) (request : DataRequestConcernRequest) (e : PyExc) :
  chat_completions_create env (data_request_concern_request (truncated_html request)) = Raise e →
  isinstance e Exception = true →
  ∃ r : ExplanationResponse,
    (explain_data_request_concern request env).2 = Return r
    ∧ explanation r =
        lit "When filling out a '" ++ form_purpose request
        ++ lit "' form, always consider if the information asked is truly necessary for the service. Be extra careful with sensitive data like your SSN, financial details, or very personal information, especially if the site isn't well-known or doesn't clearly state how your data is used. If something feels off, it's better to be cautious and not submit the form."
    ∧ contains (explanation r) (form_purpose request)
    ∧ success r = true
    ∧ error r = Some (lit "AI service unavailable, using fallback explanation: " ++ exc_str e).
Proof.
  intros Hai Hexc. eexists. split.
  - run_handler. rewrite Hai, Hexc. reflexivity.
  - cbn [explanation success error]. rewrite <- !(assoc_L (++)).
    split; [reflexivity|]. split; [apply contains_middle|]. split; reflexivity.
Qed.

Lemma data_request_fallback_mentions_purpose_witness :
  ∃ r : ExplanationResponse,
    (explain_data_request_concern long_form env_ai_down).2 = Return r
    ∧ containsb (explanation r) (lit "When filling out a 'newsletter signup' form") = true.
Proof.
  destruct (data_request_fallback_mentions_purpose env_ai_down long_form quota_exceeded
              eq_refl eq_refl) as (r & Hr & Hex & _).
  exists r. split; [exact Hr|]. rewrite Hex. reflexivity.
Defined.

(** After a successful fetch the handler makes one AI call, with
    [policy_text] of the parsed page in the user message. *)
Lemma analyze_privacy_policy_ai_calls
    (env : Env) (request : PrivacyPolicyRequest) (response : httpx.Response) :
  http_get env (policy_url request) = Return response →
  httpx.is_success response = true →
  ai_calls (analyze_privacy_policy request env).1
  = [privacy_policy_request (policy_text (html_parser env (httpx.content response)))].
Proof.
  intros Hget Hok. handler_cases; reflexivity.
Qed.

(** C7: after a successful fetch, the handler's one AI call carries
    [policy_text] of the parsed page in its user message, on the line
    after 'Privacy Policy Text:'.  When the cleaned extracted text is
    longer than 8,000 characters, [policy_text] is its first 8,000
    characters followed by '... [content truncated]'; otherwise it is the
    cleaned text unchanged. *)
Theorem policy_text_truncation
    (env : Env) (request : PrivacyPolicyRequest) (response : httpx.Response) :
  http_get env (policy_url request) = Return response →
  httpx.is_success response = true →
  let contents := html_parser env (httpx.content response) in
  let cleaned := extracted_text contents in
  ai_calls (analyze_privacy_policy request env).1
    = [privacy_policy_request (policy_text contents)]
  ∧ (∃ system : str,
       ai_calls (analyze_privacy_policy request env).1
       = [{|
           model := lit "gemini-2.5-flash-preview-05-20";
           messages := [
             [ (lit "role", lit "system"); (lit "content", system) ];
             [ (lit "role", lit "user");
               (lit "content",
                lit "Please analyze this privacy policy and identify the main red flags or concerning practices that a regular internet user should be aware of. " ++ nl
                ++ nl
                ++ lit "Privacy Policy Text:" ++ nl
                ++ policy_text contents ++ nl
                ++ nl
                ++ lit "Please provide a concise summary focusing on:" ++ nl
                ++ lit "1. How the company shares or sells user data" ++ nl
                ++ lit "2. What data they collect beyond what's necessary" ++ nl
                ++ lit "3. How long they keep user data" ++ nl
                ++ lit "4. Any concerning clauses about data usage" ++ nl
                ++ nl
                ++ lit "Format your response as bullet points in simple, non-technical language. Keep it to 3-4 key points maximum. If the policy seems reasonable, say so.") ] ];
           max_tokens := 30000;
           temperature := 7 # 10 |}])
  ∧ ((len cleaned > 8000)%Z →
       policy_text contents
       = take (Z.to_nat 8000) cleaned ++ lit "... [content truncated]")
  ∧ ((len cleaned ≤ 8000)%Z → policy_text contents = cleaned).
Proof.
  intros Hget Hok contents cleaned.
  pose proof (analyze_privacy_policy_ai_calls env request response Hget Hok) as Hcalls.
  fold contents in Hcalls.
  split; [exact Hcalls|]. split; [|split].
  - eexists. rewrite Hcalls. reflexivity.
  - intros Hlong. unfold policy_text, limit_text, slice_to. fold cleaned.
    destruct (Z.gtb_spec (len cleaned) 8000) as [_|?]; [reflexivity|lia].
  - intros Hshort. unfold policy_text, limit_text. fold cleaned.
    destruct (Z.gtb_spec (len cleaned) 8000) as [?|_]; [lia|reflexivity].
Qed.

Lemma policy_text_truncation_witness :
  (len (extracted_text (html_parser env_long_page [])) > 8000)%Z
  ∧ ∃ system : str,
      ai_calls (analyze_privacy_policy {| policy_url := lit "https://example.org/privacy" |}
                  env_long_page).1
      = [{|
           model := lit "gemini-2.5-flash-preview-05-20";
           messages := [
             [ (lit "role", lit "system"); (lit "content", system) ];
             [ (lit "role", lit "user");
               (lit "content",
                lit "Please analyze this privacy policy and identify the main red flags or concerning practices that a regular internet user should be aware of. " ++ nl
                ++ nl
                ++ lit "Privacy Policy Text:" ++ nl
                ++ (replicate (Z.to_nat 8000) 97%N ++ lit "... [content truncated]") ++ nl
                ++ nl
                ++ lit "Please provide a concise summary focusing on:" ++ nl
                ++ lit "1. How the company shares or sells user data" ++ nl
                ++ lit "2. What data they collect beyond what's necessary" ++ nl
                ++ lit "3. How long they keep user data" ++ nl
                ++ lit "4. Any concerning clauses about data usage" ++ nl
                ++ nl
                ++ lit "Format your response as bullet points in simple, non-technical language. Keep it to 3-4 key points maximum. If the policy seems reasonable, say so.") ] ];
           max_tokens := 30000;
           temperature := 7 # 10 |}].
Proof.
  split; [vm_compute; reflexivity|].
  destruct (policy_text_truncation env_long_page
              {| policy_url := lit "https://example.org/privacy" |} (page [])
              eq_refl eq_refl) as (_ & (system & Hcalls) & Hlong & _).
  exists system. rewrite Hcalls, Hlong; vm_compute; reflexivity.
Defined.

(** ** The explanation field *)

(** A returned fallback: its explanation starts with a literal. *)
(** C5, as stated, fails: when the model answers with an empty message
    content, the insecure-submission handler returns it verbatim. *)
Lemma explanation_empty_on_empty_answer :
  dispatch (InsecureSubmission Build_ExplanationRequest) env_empty_answer
  = ([AiCall insecure_submission_request],
     Return {| explanation := []; success := true; error := None |})
  ∧ ¬ explanation_never_empty.
Proof.
  split; [reflexivity|].
  intros Hclaim.
  by apply (Hclaim env_empty_answer (InsecureSubmission Build_ExplanationRequest)
              [AiCall insecure_submission_request]
              {| explanation := []; success := true; error := None |}).
Qed.

(** C5, amended: whatever response one of the four POST handlers returns,
    its explanation is non-empty, unless the handler's AI call succeeded
    with an empty message content, which is then returned verbatim (with
    [success = true] and no error).  In particular every fallback and the
    fetch-failure response have a non-empty explanation. *)
Theorem explanation_nonempty_unless_empty_answer
    (env : Env) (call : Call) (t : list Event) (r : ExplanationResponse) :
  dispatch call env = (t, Return r) →
  explanation r ≠ []
  ∨ ∃ (q : ChatRequest) (completion : openai.ChatCompletion),
      AiCall q ∈ t
      ∧ chat_completions_create env q = Return completion
      ∧ answer completion = Some (Some [])
      ∧ r = {| explanation := []; success := true; error := None |}.
Proof.
  destruct call as [request|request|request|request]; handler_cases;
    intros Hrun; returned Hrun; cbn [explanation];
    try (left; discriminate).
  all: match goal with |- ?s ≠ [] ∨ _ => destruct s; [right|by left] end;
    eexists _, _;
    (split; [repeat first [apply list_elem_of_here | apply list_elem_of_further]|]);
    (split; [eassumption|done]).
Qed.

Lemma explanation_nonempty_unless_empty_answer_witness :
  explanation
    {| explanation := lit "Unable to access the privacy policy. The link may be broken or the site may be blocking automated access.";
       success := false;
       error := Some (lit "HTTP error: timed out") |} ≠ []
  ∨ ∃ (q : ChatRequest) (completion : openai.ChatCompletion),
      AiCall q ∈ [HttpGet (lit "https://example.invalid/privacy")]
      ∧ chat_completions_create env_site_down q = Return completion
      ∧ answer completion = Some (Some [])
      ∧ {| explanation := lit "Unable to access the privacy policy. The link may be broken or the site may be blocking automated access.";
           success := false;
           error := Some (lit "HTTP error: timed out") |}
        = {| explanation := []; success := true; error := None |}.
Proof.
  apply (explanation_nonempty_unless_empty_answer env_site_down
           (AnalyzePrivacyPolicy {| policy_url := lit "https://example.invalid/privacy" |})).
  reflexivity.
Defined.

(** ** Script and style elements

    The decompose loop and [get_text], against [visible_text]. *)

Lemma PageElement_ind (P : PageElement → Prop) :
  (∀ n a cs, Forall P cs → P (Tag n a cs)) →
  (∀ s, P (NavigableString s)) →
  (∀ s, P (SpecialString s)) →
  ∀ e, P e.
Proof.
  intros Htag Hstr Hspecial.
  fix IH 1. intros [n a cs|s|s]; [|apply Hstr|apply Hspecial].
  apply Htag. induction cs as [|c cs IHcs]; constructor; [apply IH|apply IHcs].
Qed.

Lemma descendants_tag gone p n a cs :
  descendants gone p (Tag n a cs) = descendants_from gone p 0 cs.
Proof.
  cbn [descendants]. generalize 0.
  induction cs as [|c cs IHcs]; intros i; [reflexivity|].
  cbn [descendants_from]. by rewrite IHcs.
Qed.

Lemma foldl_decompose_contents (ps : list Path) (soup : Soup) :
  root_contents (foldl (λ soup script, decompose script soup) soup ps)
  = root_contents soup.
Proof.
  revert soup. induction ps as [|p ps IHps]; intros soup; [reflexivity|].
  cbn [foldl]. by rewrite IHps.
Qed.

Lemma foldl_decompose_decomposed (ps : list Path) (soup : Soup) (q : Path) :
  q ∈ decomposed (foldl (λ soup script, decompose script soup) soup ps)
  ↔ q ∈ ps ∨ q ∈ decomposed soup.
Proof.
  revert soup. induction ps as [|p ps IHps]; intros soup; cbn [foldl].
  - rewrite elem_of_nil. tauto.
  - rewrite IHps, elem_of_cons. unfold decompose; cbn [decomposed].
    rewrite elem_of_union, elem_of_singleton. tauto.
Qed.

Lemma element_at_cons (k k' : nat) (rest : Path) (cs : list PageElement) :
  element_at (k :: k' :: rest) cs
  = c ← cs !! k; element_at (k' :: rest) (contents_of c).
Proof.
  cbn [element_at]. destruct (cs !! k) as [[n a cs'| |]|]; cbn; try reflexivity.
  all: by destruct rest.
Qed.

Lemma element_at_shift (k : nat) (rest : Path) (c : PageElement) (cs : list PageElement) :
  element_at (S k :: rest) (c :: cs) = element_at (k :: rest) cs.
Proof. by destruct rest. Qed.

Section paths.
(** Every descendant is the element its path designates, for an element
    [c] below path [p] ... *)
Let designated (c : PageElement) : Prop :=
  ∀ (p q : Path) (e : PageElement),
    (q, e) ∈ descendants ∅ p c →
    ∃ k rest, q = p ++ k :: rest ∧ element_at (k :: rest) (contents_of c) = Some e.

(** ... and for siblings [cs] numbered from [i] below path [p]. *)
Let designated_from (cs : list PageElement) : Prop :=
  ∀ (p : Path) (i : nat) (q : Path) (e : PageElement),
    (q, e) ∈ descendants_from ∅ p i cs →
    ∃ k rest, q = p ++ (i + k) :: rest ∧ element_at (k :: rest) cs = Some e.

Lemma designated_siblings (cs : list PageElement) :
  Forall designated cs → designated_from cs.
Proof.
  induction 1 as [|c cs Hc _ IHcs]; intros p i q e; cbn [descendants_from].
  - by rewrite elem_of_nil.
  - rewrite decide_False by apply not_elem_of_empty.
    rewrite elem_of_app, elem_of_cons.
    intros [[Hhere|Hbelow]|Hright].
    + injection Hhere as -> ->. exists 0, []. by rewrite Nat.add_0_r.
    + destruct (Hc _ _ _ Hbelow) as (k & rest & -> & Hat).
      exists 0, (k :: rest). rewrite Nat.add_0_r, <- (assoc_L (++)).
      split; [reflexivity|]. by rewrite element_at_cons.
    + destruct (IHcs _ _ _ _ Hright) as (k & rest & -> & Hat).
      exists (S k), rest. rewrite Nat.add_succ_r, element_at_shift. by split.
Qed.

Lemma designated_element (c : PageElement) : designated c.
Proof.
  induction c as [n a cs IH| |] using PageElement_ind; intros p q e;
    [|by rewrite elem_of_nil..].
  rewrite descendants_tag. intros Hq.
  destruct (designated_siblings cs IH _ _ _ _ Hq) as (k & rest & -> & Hat).
  by exists k, rest.
Qed.

Lemma descendants_from_element_at (cs : list PageElement) (q : Path) (e : PageElement) :
  (q, e) ∈ descendants_from ∅ [] 0 cs → element_at q cs = Some e.
Proof.
  intros Hq.
  assert (Forall designated cs) as Hall
    by (apply Forall_forall; intros c _; apply designated_element).
  destruct (designated_siblings cs Hall _ _ _ _ Hq) as (k & rest & -> & Hat).
  exact Hat.
Qed.
End paths.

Lemma descendants_functional (cs : list PageElement) (q : Path) (e e' : PageElement) :
  (q, e) ∈ descendants_from ∅ [] 0 cs →
  (q, e') ∈ descendants_from ∅ [] 0 cs →
  e = e'.
Proof.
  intros He He'. apply descendants_from_element_at in He, He'. congruence.
Qed.

(** The references [find_all] returns designate exactly the matching tags. *)
Lemma elem_of_find_all (names : list str) (cs : list PageElement) (q : Path) (e : PageElement) :
  (q, e) ∈ descendants_from ∅ [] 0 cs →
  q ∈ find_all names (new_soup cs) ↔ name_in names e = true.
Proof.
  intros Hq. unfold find_all, soup_descendants, new_soup; cbn [decomposed root_contents].
  rewrite list_elem_of_omap. split.
  - intros ([q' e'] & Hq' & Hmatch). unfold matching in Hmatch; cbn in Hmatch.
    destruct (name_in names e') eqn:Hname; [|discriminate].
    injection Hmatch as ->. by rewrite (descendants_functional cs q e e').
  - intros Hname. exists (q, e). split; [done|].
    unfold matching; cbn. by rewrite Hname.
Qed.

Local Abbreviation hidden := [lit "script"; lit "style"].

Lemma visible_text_tag n a cs :
  visible_text (Tag n a cs)
  = if name_in hidden (Tag n a cs) then [] else concat (visible_text <$> cs).
Proof. reflexivity. Qed.

Lemma omap_cons {A B} (f : A → option B) (x : A) (l : list A) :
  omap f (x :: l) = match f x with Some y => y :: omap f l | None => omap f l end.
Proof. reflexivity. Qed.

Section extraction.
Variable gone : gset (list nat).

(** [gone] holds the matching tags among the descendants listed. *)
Let marks (ds : list (Path * PageElement)) : Prop :=
  ∀ q e, (q, e) ∈ ds → q ∈ gone ↔ name_in hidden e = true.

Let extracts (c : PageElement) : Prop :=
  ∀ p, marks (descendants ∅ p c) →
       concat (omap navigable (descendants gone p c))
       = concat (visible_text <$> contents_of c).

Let extracts_from (cs : list PageElement) : Prop :=
  ∀ p i, marks (descendants_from ∅ p i cs) →
         concat (omap navigable (descendants_from gone p i cs))
         = concat (visible_text <$> cs).

Lemma extracts_siblings (cs : list PageElement) :
  Forall extracts cs → extracts_from cs.
Proof.
  induction 1 as [|c cs Hc _ IHcs]; intros p i Hmarks; [reflexivity|].
  cbn [descendants_from] in *.
  rewrite decide_False in Hmarks by apply not_elem_of_empty.
  rewrite omap_app, concat_app, fmap_cons, concat_cons.
  rewrite IHcs by (intros q e Hq; apply Hmarks, elem_of_app; by right).
  f_equal.
  assert (marks (descendants ∅ (p ++ [i]) c)) as Hbelow
    by (intros q e Hq; apply Hmarks, elem_of_app; left; by apply elem_of_cons; right).
  specialize (Hc _ Hbelow).
  assert (p ++ [i] ∈ gone ↔ name_in hidden c = true) as Hhere
    by (apply Hmarks, elem_of_app; left; apply list_elem_of_here).
  destruct (name_in hidden c) eqn:Hname.
  - rewrite decide_True by by apply Hhere.
    destruct c as [n a cs'| |]; try discriminate.
    by rewrite visible_text_tag, Hname.
  - rewrite decide_False by (rewrite Hhere; discriminate).
    rewrite omap_cons.
    destruct c as [n a cs'|s|s]; unfold navigable at 1; cbn [snd].
    + by rewrite Hc, visible_text_tag, Hname.
    + by rewrite concat_cons, Hc, app_nil_r.
    + exact Hc.
Qed.

Lemma extracts_element (c : PageElement) : extracts c.
Proof.
  induction c as [n a cs IH| |] using PageElement_ind; intros p Hmarks;
    [|reflexivity..].
  rewrite descendants_tag in *. by apply extracts_siblings.
Qed.
End extraction.

(** After the loop, [get_text] yields the visible text of the document. *)
Lemma get_text_visible (cs : list PageElement) :
  get_text (remove_script_and_style (new_soup cs)) = concat (visible_text <$> cs).
Proof.
  unfold get_text, soup_descendants, remove_script_and_style.
  rewrite foldl_decompose_contents. cbn [new_soup root_contents].
  apply extracts_siblings.
  - apply Forall_forall. intros c _. apply extracts_element.
  - intros q e Hq. rewrite foldl_decompose_decomposed.
    rewrite (elem_of_find_all _ cs q e Hq). cbn [new_soup decomposed].
    rewrite elem_of_empty. tauto.
Qed.

Lemma same_outside_visible_text (e e' : PageElement) :
  same_outside_script_style e e' → visible_text e = visible_text e'.
Proof.
  revert e'. induction e as [n a cs IH|s|s] using PageElement_ind;
    intros e' Hsame; inversion Hsame as [? ? ? ? Hn|? ? ? cs' Hcs| |]; subst;
    try reflexivity.
  - cbn [visible_text]. by rewrite !bool_decide_eq_true_2.
  - cbn [visible_text]. case_bool_decide; [reflexivity|]. f_equal.
    clear Hsame. revert cs' Hcs.
    induction IH as [|c cs Hc _ IHcs]; intros cs' Hcs;
      inversion Hcs as [|? c' ? cs'' Hcc' Hrest]; subst; [reflexivity|].
    rewrite !fmap_cons. f_equal; [by apply Hc|by apply IHcs].
Qed.

Lemma same_outside_policy_text (cs cs' : list PageElement) :
  Forall2 same_outside_script_style cs cs' → policy_text cs = policy_text cs'.
Proof.
  intros Hsame. unfold policy_text, extracted_text.
  rewrite !get_text_visible. do 3 f_equal.
  induction Hsame as [|c c' cs cs' Hc _ IH]; [reflexivity|].
  rewrite !fmap_cons. f_equal; [by apply same_outside_visible_text|exact IH].
Qed.

Section remaining.
Variable gone : gset (list nat).

(** What the traversal still reaches was in the document as parsed and is
    not detached. *)
Let remains (c : PageElement) : Prop :=
  ∀ p q e, (q, e) ∈ descendants gone p c → (q, e) ∈ descendants ∅ p c ∧ q ∉ gone.

Let remains_from (cs : list PageElement) : Prop :=
  ∀ p i q e, (q, e) ∈ descendants_from gone p i cs →
             (q, e) ∈ descendants_from ∅ p i cs ∧ q ∉ gone.

Lemma remains_siblings (cs : list PageElement) :
  Forall remains cs → remains_from cs.
Proof.
  induction 1 as [|c cs Hc _ IHcs]; intros p i q e; cbn [descendants_from].
  - by rewrite elem_of_nil.
  - rewrite (decide_False (P := p ++ [i] ∈ ∅)) by apply not_elem_of_empty.
    rewrite !elem_of_app. intros [Hleft|Hright].
    + destruct (decide (p ++ [i] ∈ gone)) as [|Hnot]; [by apply elem_of_nil in Hleft|].
      apply elem_of_cons in Hleft as [Hhere|Hbelow].
      * injection Hhere as -> ->. split; [left; apply list_elem_of_here|done].
      * destruct (Hc _ _ _ Hbelow). split; [left; by apply list_elem_of_further|done].
    + destruct (IHcs _ _ _ _ Hright). split; [by right|done].
Qed.

Lemma remains_element (c : PageElement) : remains c.
Proof.
  induction c as [n a cs IH| |] using PageElement_ind; intros p q e;
    [|by rewrite elem_of_nil..].
  rewrite !descendants_tag. by apply remains_siblings.
Qed.
End remaining.

(** After the loop no [script] and no [style] element is left. *)
Lemma find_all_after_removal (cs : list PageElement) :
  find_all hidden (remove_script_and_style (new_soup cs)) = [].
Proof.
  apply elem_of_nil_inv. intros q. unfold find_all at 1.
  rewrite list_elem_of_omap. intros ([q' e] & Hq & Hmatch).
  unfold matching in Hmatch; cbn [fst snd] in Hmatch.
  destruct (name_in hidden e) eqn:Hname; [|discriminate]. injection Hmatch as ->.
  unfold soup_descendants, remove_script_and_style in Hq.
  rewrite foldl_decompose_contents in Hq. cbn [new_soup root_contents] in Hq.
  apply remains_siblings in Hq as [Hq Hnot];
    [|apply Forall_forall; intros c _; apply remains_element].
  apply Hnot, foldl_decompose_decomposed. left.
  by apply (elem_of_find_all hidden cs q e).
Qed.

(** C8: after a successful fetch, the [script] and [style] elements are
    removed before the text is extracted (none is left in the document
    when [get_text] runs), and the text the handler passes to the AI prompt
    is made from the visible text of the parsed page only, that is from the
    strings that lie in no [script] and no [style] element.  So the
    contents of script and style elements have no influence on the call:
    two fetched pages that differ only inside such elements lead to the
    same AI call. *)
Theorem script_and_style_not_extracted
    (env env' : Env) (request request' : PrivacyPolicyRequest)
    (response response' : httpx.Response) :
  http_get env (policy_url request) = Return response →
  httpx.is_success response = true →
  let contents := html_parser env (httpx.content response) in
  find_all [lit "script"; lit "style"] (remove_script_and_style (new_soup contents)) = []
  ∧ ai_calls (analyze_privacy_policy request env).1
    = [privacy_policy_request
         (limit_text (clean_up (concat (visible_text <$> contents))))]
  ∧ (http_get env' (policy_url request') = Return response' →
     httpx.is_success response' = true →
     Forall2 same_outside_script_style
       contents (html_parser env' (httpx.content response')) →
     ai_calls (analyze_privacy_policy request' env').1
     = ai_calls (analyze_privacy_policy request env).1).
Proof.
  intros Hget Hok contents.
  pose proof (analyze_privacy_policy_ai_calls env request response Hget Hok) as Hcalls.
  fold contents in Hcalls. split; [apply find_all_after_removal|]. split.
  - rewrite Hcalls. unfold policy_text, extracted_text.
    by rewrite get_text_visible.
  - intros Hget' Hok' Hsame.
    rewrite Hcalls, (analyze_privacy_policy_ai_calls env' request' response' Hget' Hok').
    do 2 f_equal. symmetry. by apply same_outside_policy_text.
Qed.

Lemma script_and_style_not_extracted_witness :
  ai_calls (analyze_privacy_policy {| policy_url := lit "https://example.org/privacy" |}
              env_tracker_page).1
    = [privacy_policy_request (lit "Policy We sell data. Kept forever.")]
  ∧ ai_calls (analyze_privacy_policy {| policy_url := lit "https://example.org/privacy" |}
                env_tracker_page').1
    = ai_calls (analyze_privacy_policy {| policy_url := lit "https://example.org/privacy" |}
                  env_tracker_page).1.
Proof.
  destruct (script_and_style_not_extracted env_tracker_page env_tracker_page'
              {| policy_url := lit "https://example.org/privacy" |}
              {| policy_url := lit "https://example.org/privacy" |}
              (page []) (page []) eq_refl eq_refl) as (_ & Hcalls & Hsame).
  split; [rewrite Hcalls; vm_compute; reflexivity|].
  apply Hsame; [reflexivity..|].
  change (Forall2 same_outside_script_style tracker_page tracker_page').
  unfold tracker_page, tracker_page'.
  repeat
    match goal with
    | |- Forall2 _ _ _ => constructor
    | |- same_outside_script_style (NavigableString _) _ => apply same_string
    | |- same_outside_script_style (SpecialString _) _ => apply same_special
    | |- same_outside_script_style (Tag _ _ _) _ =>
        first [ apply same_hidden; apply (bool_decide_unpack _); vm_compute; exact I
              | apply same_tag ]
    end.
Defined.

(** * Further properties of the handlers *)

(** X1: No handler lets an instance of [Exception] escape. *)
Theorem no_Exception_escapes (env : Env) (call : Call) (t : list Event) (e : PyExc) :
  dispatch call env = (t, Raise e) → isinstance e Exception = false.
Proof.
  destruct call; handler_cases; intros [= <- <-]; congruence.
Qed.

(** X2: What does escape: an exception of the AI call outside [Exception]. *)
Theorem base_exception_propagates (env : Env) (call : Call) (q : ChatRequest) (e : PyExc) :
  AiCall q ∈ (dispatch call env).1 →
  chat_completions_create env q = Raise e →
  isinstance e Exception = false →
  (dispatch call env).2 = Raise e.
Proof.
  destruct call; handler_cases; intros Hq Hai He; elem_cases Hq; cbn; congruence.
Qed.

Lemma base_exception_propagates_witness :
  (dispatch (AnalyzePrivacyPolicy example_policy) env_interrupted).2 = Raise interrupted.
Proof.
  apply (base_exception_propagates env_interrupted (AnalyzePrivacyPolicy example_policy)
           (privacy_policy_request (lit "We sell data."))).
  - vm_compute. do 2 apply list_elem_of_further. apply list_elem_of_here.
  - reflexivity.
  - reflexivity.
Defined.

Lemma no_Exception_escapes_witness :
  isinstance interrupted Exception = false.
Proof.
  apply (no_Exception_escapes env_interrupted (InsecureSubmission Build_ExplanationRequest)
           [AiCall insecure_submission_request]).
  reflexivity.
Defined.

(** X3: The success path: a usable answer is returned verbatim; in the
    privacy-policy handler, which prints the answer before it returns it,
    provided the console can print it. *)
Theorem usable_answer_returned_verbatim
    (env : Env) (call : Call) (q : ChatRequest)
    (completion : openai.ChatCompletion) (s : str) :
  AiCall q ∈ (dispatch call env).1 →
  chat_completions_create env q = Return completion →
  answer completion = Some (Some s) →
  (∀ request, call = AnalyzePrivacyPolicy request →
              printable env (lit "AI response: " ++ s) = true) →
  (dispatch call env).2 = Return {| explanation := s; success := true; error := None |}.
Proof.
  unfold answer.
  destruct call; handler_cases; intros Hq Hai Hs Hprint; elem_cases Hq; cbn in *;
    rewrite Hai in *; simplify_eq; cbn in *;
    try specialize (Hprint _ eq_refl); congruence.
Qed.

Lemma usable_answer_returned_verbatim_witness :
  (dispatch (AnalyzePrivacyPolicy example_policy) env_answering).2
  = Return {| explanation := lit "Looks fine."; success := true; error := None |}.
Proof.
  apply (usable_answer_returned_verbatim env_answering (AnalyzePrivacyPolicy example_policy)
           (privacy_policy_request (lit "We sell data.")) (completion_with (lit "Looks fine."))).
  - vm_compute. do 2 apply list_elem_of_further. apply list_elem_of_here.
  - reflexivity.
  - reflexivity.
  - intros request _. reflexivity.
Defined.

(** X4: A completion the handler cannot use is answered like an exception of
    the AI call. *)
Theorem unusable_answer_like_exception
    (env : Env) (call : Call) (q : ChatRequest)
    (completion : openai.ChatCompletion) (e : PyExc) :
  AiCall q ∈ (dispatch call env).1 →
  chat_completions_create env q = Return completion →
  unusable env completion = Some e →
  isinstance e Exception = true
  ∧ (dispatch call env).2 = (dispatch call (with_ai env (λ _, Raise e))).2
  ∧ ∃ r, (dispatch call env).2 = Return r ∧ success r = true ∧ explanation r ≠ []
         ∧ ∃ prefix, error r = Some (prefix ++ exc_str e).
Proof.
  unfold unusable, answer.
  destruct call; handler_cases; intros Hq Hai Hs; elem_cases Hq;
    try congruence;
    rewrite Hai in *; simplify_eq; cbn in *; simplify_eq;
    try (exfalso;
         match goal with
         | H : printable ?env ?s = false |- _ =>
             rewrite (printable_ascii env s) in H by ascii_text; discriminate H
         end);
    (split; [reflexivity|]); (split; [reflexivity|]);
    eexists; (split; [reflexivity|]); cbn; (split; [reflexivity|]);
    (split; [discriminate|]); eexists; reflexivity.
Qed.

Lemma unusable_answer_like_exception_witness :
  (dispatch (DataRequestConcern login_form) env_no_choice).2
  = (dispatch (DataRequestConcern login_form)
       (with_ai env_no_choice
          (λ _, Raise {| exc_class := Exception; exc_str := lit "list index out of range" |}))).2.
Proof.
  apply (unusable_answer_like_exception env_no_choice (DataRequestConcern login_form)
           (data_request_concern_request (truncated_html login_form))
           {| openai.choices := [] |}).
  - apply list_elem_of_here.
  - reflexivity.
  - reflexivity.
Defined.

(** X5: The [error] field tells model text from fallback text: a returned
    response has no error exactly when the handler's AI call returned the
    explanation as its message content and, in the privacy-policy handler,
    which prints the answer first, the console could print it. *)
Theorem error_absent_iff_model_text
    (env : Env) (call : Call) (t : list Event) (r : ExplanationResponse) :
  dispatch call env = (t, Return r) →
  (error r = None ↔
   ∃ q completion,
     AiCall q ∈ t
     ∧ chat_completions_create env q = Return completion
     ∧ answer completion = Some (Some (explanation r))
     ∧ (∀ request, call = AnalyzePrivacyPolicy request →
                   printable env (lit "AI response: " ++ explanation r) = true))
  ∧ (error r = None → success r = true).
Proof.
  unfold answer.
  destruct call; handler_cases; intros Hrun; returned Hrun; cbn;
    (split; [split|]); try done; try congruence.
  all: try (cbn in *; congruence).
  all: try (intros _; eexists _, _; split;
            [repeat first [apply list_elem_of_here | apply list_elem_of_further]|];
            split; [eassumption|]; split; [reflexivity|]; by intros ? ?).
  all: intros (q & completion & Hq & Hai & Hs & Hprint); elem_cases Hq;
    rewrite Hai in *; simplify_eq; cbn in *; simplify_eq;
    try specialize (Hprint _ eq_refl); congruence.
Qed.

Lemma error_absent_iff_model_text_witness :
  success {| explanation := lit "Looks fine."; success := true; error := None |} = true.
Proof.
  apply (proj2 (error_absent_iff_model_text env_answering
                  (InsecureSubmission Build_ExplanationRequest)
                  [AiCall insecure_submission_request]
                  {| explanation := lit "Looks fine."; success := true; error := None |}
                  eq_refl)).
  reflexivity.
Defined.

(** X6: [success = false] is the fetch-failure response and nothing else. *)
Theorem success_false_only_on_fetch_failure
    (env : Env) (call : Call) (t : list Event) (r : ExplanationResponse) :
  dispatch call env = (t, Return r) →
  success r = false →
  ∃ request e,
    call = AnalyzePrivacyPolicy request
    ∧ t = [HttpGet (policy_url request)]
    ∧ isinstance e HTTPError = true
    ∧ r = {| explanation := lit "Unable to access the privacy policy. The link may be broken or the site may be blocking automated access.";
             success := false;
             error := Some (lit "HTTP error: " ++ exc_str e) |}.
Proof.
  destruct call; handler_cases; intros Hrun; returned Hrun; cbn; try discriminate.
  all: intros _;
    first [ match goal with
            | H : isinstance ?e HTTPError = true |- _ => exists request, e
            end; done
          | eexists request, {| exc_class := HTTPError; exc_str := _ |};
            repeat (split; [reflexivity|]); reflexivity ].
Qed.

Lemma success_false_only_on_fetch_failure_witness :
  ∃ request e,
    AnalyzePrivacyPolicy example_policy = AnalyzePrivacyPolicy request
    ∧ [HttpGet (lit "https://example.org/privacy")] = [HttpGet (policy_url request)]
    ∧ isinstance e HTTPError = true
    ∧ {| explanation := lit "Unable to access the privacy policy. The link may be broken or the site may be blocking automated access.";
         success := false;
         error := Some (lit "HTTP error: timed out") |}
      = {| explanation := lit "Unable to access the privacy policy. The link may be broken or the site may be blocking automated access.";
           success := false;
           error := Some (lit "HTTP error: " ++ exc_str e) |}.
Proof.
  apply (success_false_only_on_fetch_failure env_site_down
           (AnalyzePrivacyPolicy example_policy)); reflexivity.
Defined.

(** X7: A handler run invokes [client.chat.completions.create] at most
    once; the three explain handlers never use the HTTP client, and the
    privacy-policy handler invokes [http_client.get] exactly once, on the
    URL as given.  The trace counts the invocations the handler makes, not
    what one invocation does inside the SDK or the HTTP client (retries of
    the SDK, redirects followed). *)
Theorem one_call_one_fetch (env : Env) (call : Call) :
  length (ai_calls (dispatch call env).1) ≤ 1
  ∧ http_gets (dispatch call env).1
    = match call with
      | AnalyzePrivacyPolicy request => [policy_url request]
      | _ => []
      end.
Proof.
  destruct call; handler_cases; split; cbn; first [reflexivity | lia].
Qed.

(** X8: The privacy-policy handler calls the AI only after a fetch that
    succeeded with a 2xx status, and with the text of that page. *)
Theorem ai_called_only_after_fetch
    (env : Env) (request : PrivacyPolicyRequest) (q : ChatRequest) :
  AiCall q ∈ (analyze_privacy_policy request env).1 →
  ∃ response,
    http_get env (policy_url request) = Return response
    ∧ httpx.is_success response = true
    ∧ q = privacy_policy_request (policy_text (html_parser env (httpx.content response))).
Proof.
  handler_cases; intros Hq; elem_cases Hq;
    eexists; (split; [reflexivity|]); split; done.
Qed.

Lemma ai_called_only_after_fetch_witness :
  ∃ response,
    http_get env_answering (policy_url example_policy) = Return response
    ∧ httpx.is_success response = true
    ∧ privacy_policy_request (lit "We sell data.")
      = privacy_policy_request (policy_text (html_parser env_answering (httpx.content response))).
Proof.
  apply (ai_called_only_after_fetch env_answering example_policy).
  vm_compute. do 2 apply list_elem_of_further. apply list_elem_of_here.
Defined.

(** X9: A fetch that fails with an exception outside [httpx.HTTPError] is
    masked: checklist fallback, [success = true], no AI call. *)
Theorem other_fetch_exception_masked
    (env : Env) (request : PrivacyPolicyRequest) (e : PyExc) :
  http_get env (policy_url request) = Raise e →
  isinstance e HTTPError = false →
  isinstance e Exception = true →
  analyze_privacy_policy request env =
    ([HttpGet (policy_url request)],
     Return {|
       explanation :=
         lit "Unable to analyze this privacy policy automatically. When reviewing privacy policies yourself, look for: "
         ++ bullet ++ lit " How they share your data with third parties "
         ++ bullet ++ lit " What data they collect beyond what's necessary for their service "
         ++ bullet ++ lit " How long they keep your information "
         ++ bullet ++ lit " Whether you can delete your data easily";
       success := true;
       error := Some (lit "Analysis service unavailable: " ++ exc_str e) |}).
Proof.
  intros Hget Hhttp Hexc. run_handler. rewrite Hget, Hhttp, Hexc. reflexivity.
Qed.

Lemma other_fetch_exception_masked_witness :
  (analyze_privacy_policy example_policy env_bad_url).1
  = [HttpGet (lit "https://example.org/privacy")].
Proof.
  rewrite (other_fetch_exception_masked env_bad_url example_policy invalid_url);
    reflexivity.
Defined.

(** X10: [form_purpose] reaches the fallback text only: the AI call does not
    depend on it, and neither does a response that carries model text. *)
Theorem form_purpose_only_in_fallback
    (env : Env) (request request' : DataRequestConcernRequest) :
  form_html request = form_html request' →
  (explain_data_request_concern request env).1
  = (explain_data_request_concern request' env).1
  ∧ ∀ r, (explain_data_request_concern request env).2 = Return r →
         error r = None →
         (explain_data_request_concern request' env).2 = Return r.
Proof.
  intros Hhtml.
  assert (truncated_html request = truncated_html request') as Htr
    by (unfold truncated_html; by rewrite Hhtml).
  run_handler. rewrite Htr. repeat (case_step; cbn); (split; [reflexivity|]);
    intros r [= <-]; cbn; done.
Qed.

Lemma form_purpose_only_in_fallback_witness :
  (explain_data_request_concern login_form env_answering).2
  = (explain_data_request_concern
       {| form_purpose := lit "signup"; form_html := form_html login_form |} env_answering).2.
Proof.
  destruct (form_purpose_only_in_fallback env_answering
              {| form_purpose := lit "signup"; form_html := form_html login_form |}
              login_form eq_refl) as [_ Hsame].
  symmetry. apply Hsame; reflexivity.
Defined.

Lemma dict_get_content (role content : str) :
  dict_get (lit "content") (message role content) = Some content.
Proof. reflexivity. Qed.

Lemma len_join_cons (sep p p' : str) (rest : list str) :
  len (join sep (p :: p' :: rest)) = (len p + len sep + len (join sep (p' :: rest)))%Z.
Proof. cbn [join]. rewrite !len_app. lia. Qed.

Ltac eval_len :=
  repeat match goal with
         | |- context [len (lit ?s)] =>
             let n := eval vm_compute in (len (lit s)) in
             change (len (lit s)) with n
         end.

Lemma prompt_chars_data_request (html : str) :
  prompt_chars (data_request_concern_request html) = (1177 + len html)%Z.
Proof.
  unfold prompt_chars, data_request_concern_request; cbn [messages foldr].
  rewrite !dict_get_content. unfold text_lines.
  rewrite !len_join_cons. cbn [join]. change (len nl) with 1%Z. eval_len. lia.
Qed.

Lemma prompt_chars_privacy_policy (text : str) :
  prompt_chars (privacy_policy_request text) = (679 + len text)%Z.
Proof.
  unfold prompt_chars, privacy_policy_request; cbn [messages foldr].
  rewrite !dict_get_content. unfold text_lines.
  rewrite !len_join_cons. cbn [join]. change (len nl) with 1%Z.
  change (len (@nil N)) with 0%Z. eval_len. lia.
Qed.

Lemma len_truncated_html (request : DataRequestConcernRequest) :
  (len (truncated_html request) ≤ 10020)%Z.
Proof.
  unfold truncated_html, MAX_HTML_LENGTH, slice_to.
  destruct (Z.gtb_spec (len (form_html request)) 10000); [|lia].
  change (10000 <? 0)%Z with false. cbn match.
  rewrite len_app, len_take_le by lia. eval_len. lia.
Qed.

Lemma len_limit_text (text : str) : (len (limit_text text) ≤ 8023)%Z.
Proof.
  unfold limit_text, slice_to.
  destruct (Z.gtb_spec (len text) 8000); [|lia].
  change (8000 <? 0)%Z with false. cbn match.
  rewrite len_app, len_take_le by lia. eval_len. lia.
Qed.

(** The requests a handler can send to the model. *)
Lemma ai_call_request (env : Env) (call : Call) (q : ChatRequest) :
  AiCall q ∈ (dispatch call env).1 →
  match call with
  | InsecureSubmission _ => q = insecure_submission_request
  | PasswordInsecureForm _ => q = password_insecure_form_request
  | DataRequestConcern request =>
      q = data_request_concern_request (truncated_html request)
  | AnalyzePrivacyPolicy _ => ∃ text, q = privacy_policy_request (limit_text text)
  end.
Proof.
  destruct call; handler_cases; intros Hq; elem_cases Hq;
    first [reflexivity | by eexists].
Qed.

Lemma prompt_chars_fixed :
  prompt_chars insecure_submission_request = 332%Z
  ∧ prompt_chars password_insecure_form_request = 371%Z.
Proof. split; vm_compute; reflexivity. Qed.

(** X11: Whatever the size of the request or of the fetched page, the prompt
    handed to the model is bounded. *)
Theorem prompt_size_bounded (env : Env) (call : Call) (q : ChatRequest) :
  AiCall q ∈ (dispatch call env).1 →
  (prompt_chars q ≤ match call with
                    | InsecureSubmission _ => 332
                    | PasswordInsecureForm _ => 371
                    | DataRequestConcern _ => 11197
                    | AnalyzePrivacyPolicy _ => 8702
                    end)%Z.
Proof.
  intros Hq. apply ai_call_request in Hq.
  destruct call as [request|request|request|request].
  - subst q. rewrite (proj1 prompt_chars_fixed). lia.
  - subst q. rewrite (proj2 prompt_chars_fixed). lia.
  - subst q. rewrite prompt_chars_data_request.
    pose proof (len_truncated_html request). lia.
  - destruct Hq as [text ->]. rewrite prompt_chars_privacy_policy.
    pose proof (len_limit_text text). lia.
Qed.

Lemma prompt_size_bounded_witness :
  (prompt_chars (data_request_concern_request (truncated_html login_form)) ≤ 11197)%Z.
Proof.
  apply (prompt_size_bounded env_answering (DataRequestConcern login_form)).
  apply list_elem_of_here.
Defined.

(** ** The clean-up of the extracted text *)

Lemma list_ind2 {A} (P : list A → Prop) :
  P [] → (∀ x, P [x]) → (∀ x y l, P l → P (y :: l) → P (x :: y :: l)) → ∀ l, P l.
Proof.
  intros Hnil Hone Hstep l.
  assert (P l ∧ ∀ x, P (x :: l)) as [? _]; [|done].
  induction l as [|y l [IH1 IH2]]; [by split|].
  split; [apply IH2|]. intros x. by apply Hstep.
Qed.

Lemma lstrip_suffix (s : str) : lstrip s `suffix_of` s.
Proof.
  induction s as [|c s IH]; cbn; [done|].
  destruct (isspace c); [by apply suffix_cons_r|done].
Qed.

Lemma elem_of_lstrip (c : N) (s : str) : c ∈ lstrip s → c ∈ s.
Proof. intros Hc. exact (elem_of_suffix _ _ _ Hc (lstrip_suffix s)). Qed.

Lemma elem_of_strip (c : N) (s : str) : c ∈ strip s → c ∈ s.
Proof.
  unfold strip. rewrite elem_of_reverse. intros Hc.
  by apply elem_of_lstrip, elem_of_reverse, elem_of_lstrip in Hc.
Qed.

Lemma elem_of_splitlines_aux (s : str) :
  ∀ (cur l : str) (c : N),
    l ∈ splitlines_aux cur s → c ∈ l →
    c ∈ cur ∨ (c ∈ s ∧ is_linebreak c = false).
Proof.
  induction s as [|x|x y s IH1 IH2] using list_ind2; intros cur l c.
  - cbn [splitlines_aux]. destruct cur; [by rewrite elem_of_nil|].
    rewrite list_elem_of_singleton. intros -> Hc. left. by apply elem_of_reverse.
  - cbn [splitlines_aux]. destruct (is_linebreak x) eqn:Hx.
    + destruct (x =? 13)%N;
        (rewrite list_elem_of_singleton; intros -> Hc; left; by apply elem_of_reverse).
    + rewrite list_elem_of_singleton. intros -> Hc.
      apply elem_of_reverse, elem_of_cons in Hc as [->|Hc]; [right|by left].
      split; [apply list_elem_of_here|done].
  - cbn [splitlines_aux]. destruct (is_linebreak x) eqn:Hx.
    + rewrite elem_of_cons. intros [->|Hl] Hc.
      * left. by apply elem_of_reverse.
      * right.
        assert (c ∈ [] ∨ c ∈ y :: s ∧ is_linebreak c = false) as [Hc'|[Hc' ?]].
        { destruct (x =? 13)%N; [destruct (y =? 10)%N|].
          - destruct (IH1 _ _ _ Hl Hc) as [?|[? ?]]; [by left|right].
            split; [by apply list_elem_of_further|done].
          - by apply (IH2 _ _ _ Hl Hc).
          - by apply (IH2 _ _ _ Hl Hc). }
        { by apply elem_of_nil in Hc'. }
        split; [by apply list_elem_of_further|done].
    + intros Hl Hc. destruct (IH2 _ _ _ Hl Hc) as [Hc'|[Hc' ?]].
      * apply elem_of_cons in Hc' as [->|Hc']; [right|by left].
        split; [apply list_elem_of_here|done].
      * right. split; [by apply list_elem_of_further|done].
Qed.

Lemma elem_of_split_aux (sep : str) (s : str) :
  ∀ (skip : nat) (cur p : str) (c : N),
    p ∈ split_aux sep skip cur s → c ∈ p → c ∈ cur ∨ c ∈ s.
Proof.
  induction s as [|x s IH]; intros skip cur p c; cbn [split_aux].
  - rewrite list_elem_of_singleton. intros -> Hc. left. by apply elem_of_reverse.
  - destruct skip as [|k].
    + destruct (starts_with (x :: s) sep).
      * rewrite elem_of_cons. intros [->|Hp] Hc.
        -- left. by apply elem_of_reverse.
        -- destruct (IH _ _ _ _ Hp Hc) as [Hc'|Hc']; [by apply elem_of_nil in Hc'|].
           right. by apply list_elem_of_further.
      * intros Hp Hc. destruct (IH _ _ _ _ Hp Hc) as [Hc'|Hc'].
        -- apply elem_of_cons in Hc' as [->|Hc']; [right; apply list_elem_of_here|by left].
        -- right. by apply list_elem_of_further.
    + intros Hp Hc. destruct (IH _ _ _ _ Hp Hc) as [Hc'|Hc']; [by left|].
      right. by apply list_elem_of_further.
Qed.

Lemma elem_of_join_str (sep : str) (ps : list str) (c : N) :
  c ∈ join sep ps → c ∈ sep ∨ ∃ p, p ∈ ps ∧ c ∈ p.
Proof.
  induction ps as [|p [|p' ps] IH]; cbn [join].
  - by rewrite elem_of_nil.
  - intros Hc. right. exists p. split; [apply list_elem_of_here|done].
  - rewrite !elem_of_app. intros [Hc|[Hc|Hc]].
    + right. exists p. split; [apply list_elem_of_here|done].
    + by left.
    + destruct (IH Hc) as [?|(p0 & Hp0 & ?)]; [by left|].
      right. exists p0. split; [by apply list_elem_of_further|done].
Qed.

Lemma clean_up_chunks (t : str) : clean_up t = join (lit " ") (chunks_of t).
Proof. reflexivity. Qed.

Lemma elem_of_chunk (t chunk : str) (c : N) :
  chunk ∈ chunks_of t → c ∈ chunk → c ∈ t ∧ is_linebreak c = false.
Proof.
  unfold chunks_of. rewrite list_elem_of_filter, list_elem_of_bind.
  intros (_ & line & Hchunk & Hline) Hc.
  apply list_elem_of_fmap in Hchunk as (piece & -> & Hpiece).
  apply list_elem_of_fmap in Hline as (raw & -> & Hraw).
  apply elem_of_strip in Hc.
  destruct (elem_of_split_aux _ _ _ _ _ _ Hpiece Hc) as [Hc'|Hc'];
    [by apply elem_of_nil in Hc'|].
  apply elem_of_strip in Hc'.
  destruct (elem_of_splitlines_aux _ _ _ _ Hraw Hc') as [Hc''|Hc''];
    [by apply elem_of_nil in Hc''|done].
Qed.

(** X12: Every character of the cleaned text is a character of the extracted
    text that is no line boundary, or the joining space: the cleaned text
    is one line made of the page's own characters. *)
Theorem clean_up_one_line (text_content : str) (c : N) :
  c ∈ clean_up text_content →
  is_linebreak c = false ∧ (c ∈ text_content ∨ c = 32%N).
Proof.
  rewrite clean_up_chunks. intros Hc.
  apply elem_of_join_str in Hc as [Hc|(chunk & Hchunk & Hc)].
  - apply list_elem_of_singleton in Hc as ->. split; [reflexivity|by right].
  - destruct (elem_of_chunk _ _ _ Hchunk Hc). split; [done|by left].
Qed.

(** *** Whitespace only *)

Lemma lstrip_all_space (s : str) :
  (∀ c, c ∈ s → isspace c = true) → lstrip s = [].
Proof.
  induction s as [|x s IH]; intros Hs; cbn; [done|].
  rewrite (Hs x) by apply list_elem_of_here.
  apply IH. intros c Hc. by apply Hs, list_elem_of_further.
Qed.

Lemma strip_all_space (s : str) :
  (∀ c, c ∈ s → isspace c = true) → strip s = [].
Proof. intros Hs. unfold strip. by rewrite (lstrip_all_space s). Qed.

Lemma chunk_nonempty (t chunk : str) : chunk ∈ chunks_of t → chunk ≠ [].
Proof. unfold chunks_of. rewrite list_elem_of_filter. by intros [? _]. Qed.

Lemma chunk_stripped (t chunk : str) :
  chunk ∈ chunks_of t → ∃ piece, chunk = strip piece ∧ ∀ c, c ∈ piece → c ∈ t.
Proof.
  unfold chunks_of. rewrite list_elem_of_filter, list_elem_of_bind.
  intros (_ & line & Hchunk & Hline).
  apply list_elem_of_fmap in Hchunk as (piece & -> & Hpiece).
  apply list_elem_of_fmap in Hline as (raw & -> & Hraw).
  exists piece. split; [done|]. intros c Hc.
  destruct (elem_of_split_aux _ _ _ _ _ _ Hpiece Hc) as [Hc'|Hc'];
    [by apply elem_of_nil in Hc'|].
  apply elem_of_strip in Hc'.
  destruct (elem_of_splitlines_aux _ _ _ _ Hraw Hc') as [Hc''|[Hc'' _]];
    [by apply elem_of_nil in Hc''|done].
Qed.

Lemma clean_up_all_space (t : str) :
  (∀ c, c ∈ t → isspace c = true) → clean_up t = [].
Proof.
  intros Ht. rewrite clean_up_chunks.
  replace (chunks_of t) with (@nil str); [done|].
  symmetry. apply elem_of_nil_inv. intros chunk Hchunk.
  destruct (chunk_stripped _ _ Hchunk) as (piece & -> & Hpiece).
  apply (chunk_nonempty _ _ Hchunk), strip_all_space.
  intros c Hc. by apply Ht, Hpiece.
Qed.

(** *** Edges and double spaces *)

Lemma single_spaced_app (l1 l2 : str) :
  single_spaced (l1 ++ l2)
  ↔ single_spaced l1 ∧ single_spaced l2
    ∧ ¬ (last l1 = Some 32%N ∧ head l2 = Some 32%N).
Proof.
  induction l1 as [|x l1 IH]; cbn [app single_spaced].
  - cbn. naive_solver.
  - rewrite IH. destruct l1 as [|y l1].
    + cbn. naive_solver.
    + cbn [app head last]. change (last (x :: y :: l1)) with (last (y :: l1)).
      naive_solver.
Qed.

Lemma single_spaced_reverse (l : str) : single_spaced (reverse l) ↔ single_spaced l.
Proof.
  induction l as [|x l IH]; [done|].
  rewrite reverse_cons, single_spaced_app, IH, last_reverse. cbn. naive_solver.
Qed.

Lemma single_spaced_suffix (l1 l2 : str) :
  l1 `suffix_of` l2 → single_spaced l2 → single_spaced l1.
Proof. intros [k ->]. rewrite single_spaced_app. naive_solver. Qed.

Lemma single_spaced_strip (s : str) : single_spaced s → single_spaced (strip s).
Proof.
  intros Hs. unfold strip. apply single_spaced_reverse.
  eapply single_spaced_suffix; [apply lstrip_suffix|].
  apply single_spaced_reverse.
  eapply single_spaced_suffix; [apply lstrip_suffix|done].
Qed.

Lemma contains_double_space (l : str) :
  single_spaced l → ¬ contains l (lit "  ").
Proof.
  intros Hl (a & b & ->). apply single_spaced_app in Hl as (_ & Hl & _).
  cbn in Hl. naive_solver.
Qed.

Lemma starts_with_nil (s : str) : starts_with s [] = true.
Proof. by destruct s. Qed.

Lemma starts_with_double_space (x : N) (s : str) :
  starts_with (x :: s) (lit "  ") = true ↔ x = 32%N ∧ head s = Some 32%N.
Proof.
  change (lit "  ") with [32%N; 32%N].
  destruct s as [|y s]; cbn [starts_with head].
  - rewrite andb_false_r. split; [done|]. by intros [_ ?].
  - rewrite starts_with_nil, andb_true_r, andb_true_iff, !N.eqb_eq.
    split; [by intros [<- <-]|]. intros [-> [= ->]]. done.
Qed.

(** The pieces of [split("  ")] hold no two adjacent spaces. *)
Lemma single_spaced_split_aux (s : str) :
  ∀ (skip : nat) (cur p : str),
    p ∈ split_aux (lit "  ") skip cur s →
    single_spaced (reverse cur) →
    (skip = 0 → head cur = Some 32%N → head s ≠ Some 32%N) →
    (skip ≠ 0 → cur = []) →
    single_spaced p.
Proof.
  induction s as [|x s IH]; intros skip cur p; cbn [split_aux].
  - rewrite list_elem_of_singleton. by intros ->.
  - destruct skip as [|k].
    + destruct (starts_with (x :: s) (lit "  ")) eqn:Hstart.
      * rewrite elem_of_cons. intros [->|Hp] Hcur Hspace _; [done|].
        apply (IH _ _ _ Hp); [done|done|done].
      * intros Hp Hcur Hspace _. apply (IH _ _ _ Hp).
        -- rewrite reverse_cons, single_spaced_app, last_reverse. cbn.
           split; [done|]. split; [split; [by intros [_ ?]|done]|]. intros [Hlast [= ->]].
           by apply (Hspace eq_refl Hlast).
        -- intros _ [= ->] Hs.
           assert (starts_with (32%N :: s) (lit "  ") = true) as Htrue
             by by apply starts_with_double_space.
           congruence.
        -- done.
    + intros Hp _ _ Hnil. rewrite (Hnil ltac:(done)) in *.
      apply (IH _ _ _ Hp); [done| |].
      * intros _ [=].
      * done.
Qed.

Lemma single_spaced_chunk (t chunk : str) :
  chunk ∈ chunks_of t → single_spaced chunk.
Proof.
  unfold chunks_of. rewrite list_elem_of_filter, list_elem_of_bind.
  intros (_ & line & Hchunk & _).
  apply list_elem_of_fmap in Hchunk as (piece & -> & Hpiece).
  apply single_spaced_strip.
  by apply (single_spaced_split_aux _ _ _ _ Hpiece).
Qed.

Lemma head_lstrip (s : str) (c : N) : head (lstrip s) = Some c → isspace c = false.
Proof.
  induction s as [|x s IH]; cbn; [done|].
  destruct (isspace x) eqn:Hx; [done|]. by intros [= <-].
Qed.

Lemma last_suffix {A} (l1 l2 : list A) (x : A) :
  l1 `suffix_of` l2 → last l1 = Some x → last l2 = Some x.
Proof. intros [k ->] Hx. by rewrite last_app, Hx. Qed.

(** A stripped string starts and ends with no whitespace. *)
Lemma strip_edges (s : str) (c : N) :
  head (strip s) = Some c ∨ last (strip s) = Some c → isspace c = false.
Proof.
  unfold strip. rewrite head_reverse, last_reverse. intros [Hc|Hc].
  - apply (last_suffix _ _ _ (lstrip_suffix _)) in Hc.
    rewrite last_reverse in Hc. by apply head_lstrip in Hc.
  - by apply head_lstrip in Hc.
Qed.

Lemma chunk_edges (t chunk : str) (c : N) :
  chunk ∈ chunks_of t →
  head chunk = Some c ∨ last chunk = Some c → isspace c = false.
Proof.
  intros Hchunk. destruct (chunk_stripped _ _ Hchunk) as (piece & -> & _).
  apply strip_edges.
Qed.

Lemma join_cons (sep p p' : str) (rest : list str) :
  join sep (p :: p' :: rest) = p ++ sep ++ join sep (p' :: rest).
Proof. reflexivity. Qed.

Lemma head_join (sep : str) (chunks : list str) :
  (∀ chunk, chunk ∈ chunks → chunk ≠ []) →
  head (join sep chunks) = hd ← head chunks; head hd.
Proof.
  intros nonempty.
  destruct chunks as [|p [|p' ps]]; cbn [join head mbind option_bind]; [done..|].
  destruct p; [|done]. by destruct (nonempty []); [apply list_elem_of_here|].
Qed.

Lemma last_join (sep : str) (chunks : list str) :
  (∀ chunk, chunk ∈ chunks → chunk ≠ []) →
  last (join sep chunks) = tl ← last chunks; last tl.
Proof.
  induction chunks as [|p [|p' ps] IH]; intros nonempty; [done..|].
  rewrite join_cons, !last_app.
  rewrite IH by (intros ? ?; by apply nonempty, list_elem_of_further).
  change (last (p :: p' :: ps)) with (last (p' :: ps)).
  destruct (last (p' :: ps)) as [tl|] eqn:Htl; [|by apply last_None in Htl].
  cbn. destruct (last tl) eqn:Hlast; [done|].
  apply last_None in Hlast. subst tl.
  destruct (nonempty []); [|done].
  apply list_elem_of_further, list_elem_of_lookup.
  apply last_Some in Htl as [k Htl].
  exists (length k). rewrite Htl. by apply list_lookup_middle.
Qed.

Lemma single_spaced_join (chunks : list str) :
  (∀ chunk, chunk ∈ chunks → chunk ≠ []) →
  (∀ chunk, chunk ∈ chunks → single_spaced chunk) →
  (∀ chunk c, chunk ∈ chunks →
     head chunk = Some c ∨ last chunk = Some c → c ≠ 32%N) →
  single_spaced (join (lit " ") chunks).
Proof.
  induction chunks as [|p [|p' ps] IH]; intros nonempty spaced edges; [done| |].
  - cbn. apply spaced, list_elem_of_here.
  - rewrite join_cons, !single_spaced_app.
    assert (∀ chunk, chunk ∈ p' :: ps → chunk ≠ []) as Hne
      by (intros ? ?; by apply nonempty, list_elem_of_further).
    split; [apply spaced, list_elem_of_here|]. split; [split; [|split]|].
    + change (lit " ") with [32%N]. cbn. split; [by intros [_ ?]|done].
    + apply IH; [done|..]; intros; first [apply spaced | eapply edges];
        first [by apply list_elem_of_further | done].
    + rewrite head_join by done. cbn. intros [_ Hhead].
      by apply (edges p' 32%N); [apply list_elem_of_further, list_elem_of_here|left|].
    + intros [Hlast _]. by apply (edges p 32%N); [apply list_elem_of_here|right|].
Qed.

Lemma head_elem_of {A} (l : list A) (x : A) : head l = Some x → x ∈ l.
Proof. destruct l; [done|]. intros [= ->]. apply list_elem_of_here. Qed.

Lemma last_elem_of {A} (l : list A) (x : A) : last l = Some x → x ∈ l.
Proof.
  intros Hx. apply last_Some in Hx as [k ->].
  apply elem_of_app. right. apply list_elem_of_here.
Qed.

Lemma clean_up_edges (t : str) (c : N) :
  head (clean_up t) = Some c ∨ last (clean_up t) = Some c → isspace c = false.
Proof.
  rewrite clean_up_chunks.
  rewrite head_join, last_join by apply chunk_nonempty.
  intros [Hc|Hc].
  - destruct (head (chunks_of t)) as [hd|] eqn:Hhd; [|done].
    apply (chunk_edges t hd); [by apply head_elem_of|by left].
  - destruct (last (chunks_of t)) as [tl|] eqn:Htl; [|done].
    apply (chunk_edges t tl); [by apply last_elem_of|by right].
Qed.

Lemma single_spaced_clean_up (t : str) : single_spaced (clean_up t).
Proof.
  rewrite clean_up_chunks. apply single_spaced_join.
  - apply chunk_nonempty.
  - apply single_spaced_chunk.
  - intros chunk c Hchunk Hc ->. by apply (chunk_edges _ _ _ Hchunk) in Hc.
Qed.

(** X13: The cleaned text neither starts nor ends with whitespace and holds no
    two adjacent spaces. *)
Theorem clean_up_normal_form (text_content : str) :
  (∀ c, head (clean_up text_content) = Some c ∨ last (clean_up text_content) = Some c →
        isspace c = false)
  ∧ ¬ contains (clean_up text_content) (lit "  ").
Proof.
  split; [apply clean_up_edges|].
  apply contains_double_space, single_spaced_clean_up.
Qed.

(** *** Cleaning twice *)

Lemma splitlines_aux_one_line (s : str) :
  ∀ cur : str,
    (∀ c, c ∈ s → is_linebreak c = false) →
    cur ≠ [] ∨ s ≠ [] →
    splitlines_aux cur s = [reverse cur ++ s].
Proof.
  induction s as [|x s IH]; intros cur Hs Hne; cbn [splitlines_aux].
  - destruct Hne as [Hne|Hne]; [|done]. rewrite app_nil_r. by destruct cur.
  - rewrite (Hs x) by apply list_elem_of_here.
    rewrite IH.
    + by rewrite reverse_cons, <- (assoc_L (++)).
    + intros c Hc. by apply Hs, list_elem_of_further.
    + by left.
Qed.

Lemma split_aux_single_spaced (s : str) :
  ∀ cur : str,
    single_spaced (reverse cur ++ s) →
    split_aux (lit "  ") 0 cur s = [reverse cur ++ s].
Proof.
  induction s as [|x s IH]; intros cur Hs; cbn [split_aux].
  - by rewrite app_nil_r.
  - destruct (starts_with (x :: s) (lit "  ")) eqn:Hstart.
    + apply starts_with_double_space in Hstart.
      apply single_spaced_app in Hs as (_ & [Hx _] & _). done.
    + rewrite IH; rewrite reverse_cons, <- (assoc_L (++)); done.
Qed.

Lemma lstrip_id (s : str) :
  (∀ c, head s = Some c → isspace c = false) → lstrip s = s.
Proof. destruct s as [|x s]; [done|]. intros Hs. cbn. by rewrite (Hs x). Qed.

Lemma strip_id (s : str) :
  (∀ c, head s = Some c ∨ last s = Some c → isspace c = false) → strip s = s.
Proof.
  intros Hs. unfold strip.
  rewrite (lstrip_id s) by (intros; apply Hs; by left).
  rewrite lstrip_id, reverse_involutive; [done|].
  intros c. rewrite head_reverse. intros; apply Hs; by right.
Qed.

(** X14: Cleaning a cleaned text changes nothing. *)
Theorem clean_up_idempotent (text_content : str) :
  clean_up (clean_up text_content) = clean_up text_content.
Proof.
  pose proof (clean_up_edges text_content) as Hedges.
  pose proof (single_spaced_clean_up text_content) as Hspaced.
  assert (∀ c, c ∈ clean_up text_content → is_linebreak c = false) as Hline.
  { intros c. rewrite clean_up_chunks. intros Hc.
    apply elem_of_join_str in Hc as [Hc|(chunk & Hchunk & Hc)].
    - by apply list_elem_of_singleton in Hc as ->.
    - by destruct (elem_of_chunk _ _ _ Hchunk Hc). }
  destruct (clean_up text_content) as [|x u] eqn:Hu; [reflexivity|].
  unfold clean_up. unfold splitlines.
  rewrite splitlines_aux_one_line by (done || by right).
  cbn [reverse rev_append app fmap list_fmap]. rewrite strip_id by done.
  cbn [mbind list_bind]. unfold split. rewrite split_aux_single_spaced by done.
  cbn [reverse rev_append app fmap list_fmap]. rewrite strip_id by done.
  rewrite filter_cons_True by done. reflexivity.
Qed.

(** X15: A page without visible text is still sent to the model, with an empty
    policy text. *)
Theorem blank_page_still_analyzed
    (env : Env) (request : PrivacyPolicyRequest) (response : httpx.Response) :
  http_get env (policy_url request) = Return response →
  httpx.is_success response = true →
  (∀ c, c ∈ concat (visible_text <$> html_parser env (httpx.content response)) →
        isspace c = true) →
  ai_calls (analyze_privacy_policy request env).1 = [privacy_policy_request []].
Proof.
  intros Hget Hok Hblank.
  rewrite (analyze_privacy_policy_ai_calls env request response Hget Hok).
  unfold policy_text, extracted_text.
  by rewrite get_text_visible, clean_up_all_space.
Qed.

Lemma clean_up_one_line_witness :
  is_linebreak 98 = false ∧ (98%N ∈ lit " a  b" ++ nl ∨ 98%N = 32%N).
Proof.
  apply (clean_up_one_line (lit " a  b" ++ nl) 98).
  vm_compute. do 2 apply list_elem_of_further. apply list_elem_of_here.
Defined.

Lemma clean_up_normal_form_witness :
  isspace 97 = false ∧ ¬ contains (clean_up (lit " a   b " ++ nl)) (lit "  ").
Proof.
  destruct (clean_up_normal_form (lit " a   b " ++ nl)) as [Hedges Hspaces].
  split; [|exact Hspaces]. apply Hedges. left. reflexivity.
Defined.

Lemma blank_page_still_analyzed_witness :
  ai_calls (analyze_privacy_policy {| policy_url := lit "https://example.org/privacy" |}
              env_blank_page).1
  = [privacy_policy_request []].
Proof.
  apply (blank_page_still_analyzed env_blank_page _ (page [])); [reflexivity..|].
  intros c Hc. vm_compute in Hc.
  repeat (apply elem_of_cons in Hc as [->|Hc]; [reflexivity|]).
  by apply elem_of_nil in Hc.
Defined.

(** ** Module initialisation *)

(** X17: The client is configured exactly when the key is set and not empty,
    and then holds that key; otherwise start-up raises. *)
Theorem client_requires_key (environ : gmap (list N) (list N)) :
  (∀ client, configure_client environ = Return client →
     api_key client ≠ []
     ∧ environ !! lit "GOOGLE_API_KEY" = Some (api_key client)
     ∧ base_url client = lit "https://generativelanguage.googleapis.com/v1beta/openai/")
  ∧ (environ !! lit "GOOGLE_API_KEY" = None ∨ environ !! lit "GOOGLE_API_KEY" = Some [] →
     configure_client environ
     = Raise {| exc_class := Exception;
                exc_str := lit "GOOGLE_API_KEY environment variable is required" |}).
Proof.
  unfold configure_client. split.
  - intros client. destruct (environ !! lit "GOOGLE_API_KEY") as [[|x key]|]; cbn;
      [discriminate| |discriminate].
    intros Hc. apply Return_inj in Hc. subst client. done.
  - by intros [->| ->].
Qed.

Lemma client_requires_key_witness :
  configure_client {[ lit "GOOGLE_API_KEY" := [] ]}
  = Raise {| exc_class := Exception;
             exc_str := lit "GOOGLE_API_KEY environment variable is required" |}.
Proof.
  apply client_requires_key. right. apply lookup_singleton_eq.
Defined.

(** ** The console *)

(** X16: The console of the privacy-policy handler after a successful
    fetch, and what a [print] that fails does to the response.  A usable
    answer the console can print is printed and returned; one it cannot
    print is dropped: the [UnicodeEncodeError] of the [print] is printed
    by the inner handler and reported with the checklist.  An exception of
    the AI call (an instance of [Exception]) is printed and reported when
    the console can print its text; otherwise nothing more is printed and
    the error of the [print] is reported in its place. *)
Theorem privacy_policy_console
    (env : Env) (request : PrivacyPolicyRequest) (response : httpx.Response) :
  http_get env (policy_url request) = Return response →
  httpx.is_success response = true →
  let q := privacy_policy_request (policy_text (html_parser env (httpx.content response))) in
  (∀ completion s,
     chat_completions_create env q = Return completion →
     answer completion = Some (Some s) →
     (printable env (lit "AI response: " ++ s) = true →
      analyze_privacy_policy request env
      = ([ HttpGet (policy_url request);
           Print (lit "Making AI request...");
           AiCall q;
           Print (lit "AI request completed successfully");
           Print (lit "AI response: " ++ s) ],
         Return {| explanation := s; success := true; error := None |}))
     ∧
     (printable env (lit "AI response: " ++ s) = false →
      analyze_privacy_policy request env
      = ([ HttpGet (policy_url request);
           Print (lit "Making AI request...");
           AiCall q;
           Print (lit "AI request completed successfully");
           Print (lit "AI request failed with error: "
                  ++ encode_error_str env (lit "AI response: " ++ s)) ],
         Return {|
        explanation :=
          lit "Unable to analyze this privacy policy automatically. When reviewing privacy policies yourself, look for: "
          ++ bullet ++ lit " How they share your data with third parties "
          ++ bullet ++ lit " What data they collect beyond what's necessary for their service "
          ++ bullet ++ lit " How long they keep your information "
          ++ bullet ++ lit " Whether you can delete your data easily";
        success := true;
        error := Some (lit "Analysis service unavailable: " ++ encode_error_str env (lit "AI response: " ++ s)) |})))
  ∧ (∀ e,
       chat_completions_create env q = Raise e →
       isinstance e Exception = true →
       (printable env (lit "AI request failed with error: " ++ exc_str e) = true →
        analyze_privacy_policy request env
        = ([ HttpGet (policy_url request);
             Print (lit "Making AI request...");
             AiCall q;
             Print (lit "AI request failed with error: " ++ exc_str e) ],
           Return {|
        explanation :=
          lit "Unable to analyze this privacy policy automatically. When reviewing privacy policies yourself, look for: "
          ++ bullet ++ lit " How they share your data with third parties "
          ++ bullet ++ lit " What data they collect beyond what's necessary for their service "
          ++ bullet ++ lit " How long they keep your information "
          ++ bullet ++ lit " Whether you can delete your data easily";
        success := true;
        error := Some (lit "Analysis service unavailable: " ++ exc_str e) |}))
       ∧
       (printable env (lit "AI request failed with error: " ++ exc_str e) = false →
        analyze_privacy_policy request env
        = ([ HttpGet (policy_url request);
             Print (lit "Making AI request...");
             AiCall q ],
           Return {|
        explanation :=
          lit "Unable to analyze this privacy policy automatically. When reviewing privacy policies yourself, look for: "
          ++ bullet ++ lit " How they share your data with third parties "
          ++ bullet ++ lit " What data they collect beyond what's necessary for their service "
          ++ bullet ++ lit " How long they keep your information "
          ++ bullet ++ lit " Whether you can delete your data easily";
        success := true;
        error := Some (lit "Analysis service unavailable: " ++ encode_error_str env (lit "AI request failed with error: " ++ exc_str e)) |}))).
Proof.
  intros Hget Hok q. subst q. unfold answer. split.
  - intros [[|[[c]] ?]] s Hai [= ->].
    split; intros Hprint; handler_cases; reflexivity.
  - intros e Hai He.
    split; intros Hprint; handler_cases; reflexivity.
Qed.

Lemma privacy_policy_console_witness :
  analyze_privacy_policy example_policy env_ascii_console_answering
  = ([ HttpGet (lit "https://example.org/privacy");
       Print (lit "Making AI request...");
       AiCall (privacy_policy_request (lit "We sell data."));
       Print (lit "AI request completed successfully");
       Print (lit "AI request failed with error: 'ascii' codec can't encode character") ],
     Return {|
       explanation :=
         lit "Unable to analyze this privacy policy automatically. When reviewing privacy policies yourself, look for: "
         ++ bullet ++ lit " How they share your data with third parties "
         ++ bullet ++ lit " What data they collect beyond what's necessary for their service "
         ++ bullet ++ lit " How long they keep your information "
         ++ bullet ++ lit " Whether you can delete your data easily";
       success := true;
       error := Some (lit "Analysis service unavailable: 'ascii' codec can't encode character") |})
  ∧ (analyze_privacy_policy example_policy env_answering).1
    = [ HttpGet (lit "https://example.org/privacy");
        Print (lit "Making AI request...");
        AiCall (privacy_policy_request (lit "We sell data."));
        Print (lit "AI request completed successfully");
        Print (lit "AI response: Looks fine.") ].
Proof.
  split.
  - destruct (privacy_policy_console env_ascii_console_answering example_policy (page [])
                eq_refl eq_refl) as [Hanswer _].
    destruct (Hanswer (completion_with (bullet ++ lit " They sell your data."))
                (bullet ++ lit " They sell your data.") eq_refl eq_refl) as [_ Hfail].
    rewrite Hfail; reflexivity.
  - destruct (privacy_policy_console env_answering example_policy (page [])
                eq_refl eq_refl) as [Hanswer _].
    destruct (Hanswer (completion_with (lit "Looks fine.")) (lit "Looks fine.")
                eq_refl eq_refl) as [Hprinted _].
    rewrite Hprinted; reflexivity.
Defined.
